(** * Jack Attack: a shallow embedding of the game engine (core/game.ts)

    The engine is a set of transition functions over a [GameState] value.
    Arrays are lists (index 0 first, [push]/[pop] work at the end), numbers
    that the engine only ever uses as integers are [Z] (the additions to
    [pendingPickup], the one number that can grow, go through [js_add],
    which rounds as doubles do), strings are [string], and [Math.random] is
    an explicit supply of draws that is threaded through the functions that
    consume it.  A dereference of
    [undefined] (the only way the engine can raise after construction) is
    the [TypeError] outcome of [Result]. *)

From stdpp Require Import base list strings pretty.
From Stdlib Require Import ZArith Lia.

Open Scope Z_scope.
Open Scope string_scope.
Open Scope list_scope.

(** ** core/types.ts *)

Inductive Difficulty := Easy | Medium | Hard.

Inductive Suit := Hearts | Diamonds | Clubs | Spades.

Inductive Rank :=
  | Two | Three | Four | Five | Six | Seven | Eight | Nine | Ten
  | Jack | Queen | King | Ace.

Inductive GameMode := VsBot | LocalMultiplayer | Tournament.

#[global] Instance Suit_eq_dec : EqDecision Suit.
Proof. solve_decision. Defined.

#[global] Instance Rank_eq_dec : EqDecision Rank.
Proof. solve_decision. Defined.

#[global] Instance GameMode_eq_dec : EqDecision GameMode.
Proof. solve_decision. Defined.

#[global] Instance Difficulty_eq_dec : EqDecision Difficulty.
Proof. solve_decision. Defined.

(** The string values of the enums, as declared. *)
Definition suit_str (s : Suit) : string :=
  match s with
  | Hearts => "♥" | Diamonds => "♦" | Clubs => "♣" | Spades => "♠"
  end.

Definition rank_str (r : Rank) : string :=
  match r with
  | Two => "2" | Three => "3" | Four => "4" | Five => "5" | Six => "6"
  | Seven => "7" | Eight => "8" | Nine => "9" | Ten => "10"
  | Jack => "J" | Queen => "Q" | King => "K" | Ace => "A"
  end.

(** [Object.values(Suit)] and [Object.values(Rank)]: declaration order. *)
Definition suit_values : list Suit := [Hearts; Diamonds; Clubs; Spades].

Definition rank_values : list Rank :=
  [Two; Three; Four; Five; Six; Seven; Eight; Nine; Ten; Jack; Queen; King; Ace].

Record Card := mkCard {
  c_id : string;
  c_suit : Suit;
  c_rank : Rank;
}.

Record Player := mkPlayer {
  p_id : string;
  p_name : string;
  p_avatar : string;
  p_isBot : bool;
  p_hand : list Card;
}.

Record TournamentConfig := mkTournamentConfig {
  totalRounds : Z;
  currentRound : Z;
  scores : list (string * Z);
}.

#[warnings="-register-all"] Inductive GameState := mkGameState {
  deck : list Card;
  discardPile : list Card;
  players : list Player;
  currentPlayerIndex : Z;
  direction : Z;
  winnerId : option string;
  pendingPickup : Z;
  lastAction : string;
  difficulty : Difficulty;
  gameMode : GameMode;
  pendingSuitChoice : bool;
  chosenSuit : option Suit;
  peekingCard : option Card;
  peekingPlayerId : option string;
  pendingSwap : bool;
  tournamentConfig : option TournamentConfig;
  showPassScreen : bool;
  nextPlayerName : string;
  previousState : option GameState;
  canUndo : bool;
}.

(** Field updates ([state.f = v] on a state the function owns). *)

Definition set_deck (v : list Card) (s : GameState) : GameState :=
  mkGameState v (discardPile s) (players s) (currentPlayerIndex s)
    (direction s) (winnerId s) (pendingPickup s) (lastAction s) (difficulty s)
    (gameMode s) (pendingSuitChoice s) (chosenSuit s) (peekingCard s)
    (peekingPlayerId s) (pendingSwap s) (tournamentConfig s)
    (showPassScreen s) (nextPlayerName s) (previousState s) (canUndo s).

Definition set_discardPile (v : list Card) (s : GameState) : GameState :=
  mkGameState (deck s) v (players s) (currentPlayerIndex s) (direction s)
    (winnerId s) (pendingPickup s) (lastAction s) (difficulty s) (gameMode s)
    (pendingSuitChoice s) (chosenSuit s) (peekingCard s) (peekingPlayerId s)
    (pendingSwap s) (tournamentConfig s) (showPassScreen s) (nextPlayerName s)
    (previousState s) (canUndo s).

Definition set_players (v : list Player) (s : GameState) : GameState :=
  mkGameState (deck s) (discardPile s) v (currentPlayerIndex s) (direction s)
    (winnerId s) (pendingPickup s) (lastAction s) (difficulty s) (gameMode s)
    (pendingSuitChoice s) (chosenSuit s) (peekingCard s) (peekingPlayerId s)
    (pendingSwap s) (tournamentConfig s) (showPassScreen s) (nextPlayerName s)
    (previousState s) (canUndo s).

Definition set_currentPlayerIndex (v : Z) (s : GameState) : GameState :=
  mkGameState (deck s) (discardPile s) (players s) v (direction s)
    (winnerId s) (pendingPickup s) (lastAction s) (difficulty s) (gameMode s)
    (pendingSuitChoice s) (chosenSuit s) (peekingCard s) (peekingPlayerId s)
    (pendingSwap s) (tournamentConfig s) (showPassScreen s) (nextPlayerName s)
    (previousState s) (canUndo s).

Definition set_direction (v : Z) (s : GameState) : GameState :=
  mkGameState (deck s) (discardPile s) (players s) (currentPlayerIndex s) v
    (winnerId s) (pendingPickup s) (lastAction s) (difficulty s) (gameMode s)
    (pendingSuitChoice s) (chosenSuit s) (peekingCard s) (peekingPlayerId s)
    (pendingSwap s) (tournamentConfig s) (showPassScreen s) (nextPlayerName s)
    (previousState s) (canUndo s).

Definition set_winnerId (v : option string) (s : GameState) : GameState :=
  mkGameState (deck s) (discardPile s) (players s) (currentPlayerIndex s)
    (direction s) v (pendingPickup s) (lastAction s) (difficulty s)
    (gameMode s) (pendingSuitChoice s) (chosenSuit s) (peekingCard s)
    (peekingPlayerId s) (pendingSwap s) (tournamentConfig s)
    (showPassScreen s) (nextPlayerName s) (previousState s) (canUndo s).

Definition set_pendingPickup (v : Z) (s : GameState) : GameState :=
  mkGameState (deck s) (discardPile s) (players s) (currentPlayerIndex s)
    (direction s) (winnerId s) v (lastAction s) (difficulty s) (gameMode s)
    (pendingSuitChoice s) (chosenSuit s) (peekingCard s) (peekingPlayerId s)
    (pendingSwap s) (tournamentConfig s) (showPassScreen s) (nextPlayerName s)
    (previousState s) (canUndo s).

Definition set_lastAction (v : string) (s : GameState) : GameState :=
  mkGameState (deck s) (discardPile s) (players s) (currentPlayerIndex s)
    (direction s) (winnerId s) (pendingPickup s) v (difficulty s) (gameMode s)
    (pendingSuitChoice s) (chosenSuit s) (peekingCard s) (peekingPlayerId s)
    (pendingSwap s) (tournamentConfig s) (showPassScreen s) (nextPlayerName s)
    (previousState s) (canUndo s).

Definition set_pendingSuitChoice (v : bool) (s : GameState) : GameState :=
  mkGameState (deck s) (discardPile s) (players s) (currentPlayerIndex s)
    (direction s) (winnerId s) (pendingPickup s) (lastAction s) (difficulty s)
    (gameMode s) v (chosenSuit s) (peekingCard s) (peekingPlayerId s)
    (pendingSwap s) (tournamentConfig s) (showPassScreen s) (nextPlayerName s)
    (previousState s) (canUndo s).

Definition set_chosenSuit (v : option Suit) (s : GameState) : GameState :=
  mkGameState (deck s) (discardPile s) (players s) (currentPlayerIndex s)
    (direction s) (winnerId s) (pendingPickup s) (lastAction s) (difficulty s)
    (gameMode s) (pendingSuitChoice s) v (peekingCard s) (peekingPlayerId s)
    (pendingSwap s) (tournamentConfig s) (showPassScreen s) (nextPlayerName s)
    (previousState s) (canUndo s).

Definition set_peekingCard (v : option Card) (s : GameState) : GameState :=
  mkGameState (deck s) (discardPile s) (players s) (currentPlayerIndex s)
    (direction s) (winnerId s) (pendingPickup s) (lastAction s) (difficulty s)
    (gameMode s) (pendingSuitChoice s) (chosenSuit s) v (peekingPlayerId s)
    (pendingSwap s) (tournamentConfig s) (showPassScreen s) (nextPlayerName s)
    (previousState s) (canUndo s).

Definition set_peekingPlayerId (v : option string) (s : GameState) : GameState :=
  mkGameState (deck s) (discardPile s) (players s) (currentPlayerIndex s)
    (direction s) (winnerId s) (pendingPickup s) (lastAction s) (difficulty s)
    (gameMode s) (pendingSuitChoice s) (chosenSuit s) (peekingCard s) v
    (pendingSwap s) (tournamentConfig s) (showPassScreen s) (nextPlayerName s)
    (previousState s) (canUndo s).

Definition set_pendingSwap (v : bool) (s : GameState) : GameState :=
  mkGameState (deck s) (discardPile s) (players s) (currentPlayerIndex s)
    (direction s) (winnerId s) (pendingPickup s) (lastAction s) (difficulty s)
    (gameMode s) (pendingSuitChoice s) (chosenSuit s) (peekingCard s)
    (peekingPlayerId s) v (tournamentConfig s) (showPassScreen s)
    (nextPlayerName s) (previousState s) (canUndo s).

Definition set_showPassScreen (v : bool) (s : GameState) : GameState :=
  mkGameState (deck s) (discardPile s) (players s) (currentPlayerIndex s)
    (direction s) (winnerId s) (pendingPickup s) (lastAction s) (difficulty s)
    (gameMode s) (pendingSuitChoice s) (chosenSuit s) (peekingCard s)
    (peekingPlayerId s) (pendingSwap s) (tournamentConfig s) v
    (nextPlayerName s) (previousState s) (canUndo s).

Definition set_nextPlayerName (v : string) (s : GameState) : GameState :=
  mkGameState (deck s) (discardPile s) (players s) (currentPlayerIndex s)
    (direction s) (winnerId s) (pendingPickup s) (lastAction s) (difficulty s)
    (gameMode s) (pendingSuitChoice s) (chosenSuit s) (peekingCard s)
    (peekingPlayerId s) (pendingSwap s) (tournamentConfig s)
    (showPassScreen s) v (previousState s) (canUndo s).

Definition set_previousState (v : option GameState) (s : GameState) : GameState :=
  mkGameState (deck s) (discardPile s) (players s) (currentPlayerIndex s)
    (direction s) (winnerId s) (pendingPickup s) (lastAction s) (difficulty s)
    (gameMode s) (pendingSuitChoice s) (chosenSuit s) (peekingCard s)
    (peekingPlayerId s) (pendingSwap s) (tournamentConfig s)
    (showPassScreen s) (nextPlayerName s) v (canUndo s).

Definition set_canUndo (v : bool) (s : GameState) : GameState :=
  mkGameState (deck s) (discardPile s) (players s) (currentPlayerIndex s)
    (direction s) (winnerId s) (pendingPickup s) (lastAction s) (difficulty s)
    (gameMode s) (pendingSuitChoice s) (chosenSuit s) (peekingCard s)
    (peekingPlayerId s) (pendingSwap s) (tournamentConfig s)
    (showPassScreen s) (nextPlayerName s) (previousState s) v.

(** ** Outcomes and randomness *)

Inductive Exn := TypeError | DeckError.

Inductive Result (A : Type) :=
  | Ok (a : A)
  | Raise (e : Exn).

Arguments Ok {A} a.
Arguments Raise {A} e.

(** The supply of [Math.random()] draws still to come.  A draw is kept as a
    natural number [r]; [Math.floor(Math.random() * n)] reads it as
    [r mod n], so every index below [n] can come out.  An exhausted supply
    answers 0. *)
Definition Rng := list nat.

Definition random_below (n : nat) (g : Rng) : nat * Rng :=
  match g with
  | [] => (0%nat, [])
  | r :: g' => (if bool_decide (n = 0%nat) then 0%nat else Nat.modulo r n, g')
  end.

(** JavaScript truthiness of a [string | null]. *)
Definition truthy (w : option string) : bool :=
  match w with
  | Some (String _ _) => true
  | _ => false
  end.

(** [arr[i]] for a number [i]: [undefined] outside the array. *)
Definition at_index {A} (l : list A) (i : Z) : option A :=
  if bool_decide (i < 0) then None else l !! Z.to_nat i.

(** [arr.findIndex(f)], with [None] for -1. *)
Fixpoint findIndex {A} (f : A -> bool) (l : list A) : option nat :=
  match l with
  | [] => None
  | x :: l' => if f x then Some 0%nat else S <$> findIndex f l'
  end.

(** [arr.pop()]: the array without its last element, and that element. *)
Definition pop {A} (l : list A) : option (list A * A) :=
  match rev l with
  | [] => None
  | x :: r => Some (rev r, x)
  end.

(** ** Helper functions of core/game.ts *)

Definition createDeck : list Card :=
  s ← suit_values;
  r ← rank_values;
  [ mkCard (suit_str s +:+ "-" +:+ rank_str r) s r ].

(** [[a[i], a[j]] = [a[j], a[i]]] *)
Definition swap_at {A} (i j : nat) (l : list A) : list A :=
  match l !! i, l !! j with
  | Some x, Some y => <[j := x]> (<[i := y]> l)
  | _, _ => l
  end.

(** The loop of [shuffleDeck], entered with index [i]. *)
Fixpoint shuffle_from (i : nat) (newDeck : list Card) (g : Rng) : list Card * Rng :=
  match i with
  | O => (newDeck, g)
  | S i' =>
      let '(j, g') := random_below (S i) g in
      shuffle_from i' (swap_at i j newDeck) g'
  end.

Definition shuffleDeck (deck : list Card) (g : Rng) : list Card * Rng :=
  shuffle_from (length deck - 1) deck g.

Definition getSuitValue (suit : Suit) : Z :=
  match suit with
  | Hearts => 1 | Diamonds => 2 | Clubs => 3 | Spades => 4
  end.

Definition getRankValue (rank : Rank) : Z :=
  match rank with
  | Two => 2 | Three => 3 | Four => 4 | Five => 5 | Six => 6 | Seven => 7
  | Eight => 8 | Nine => 9 | Ten => 10 | Jack => 11 | Queen => 12
  | King => 13 | Ace => 14
  end.

(** [Array.prototype.sort] is a stable sort; for a comparator that is a
    total preorder its result is the stable insertion sort below. *)
Section StableSort.
Context {A : Type} (cmp : A -> A -> Z).

Fixpoint sort_insert (x : A) (l : list A) : list A :=
  match l with
  | [] => [x]
  | y :: l' => if bool_decide (0 < cmp x y) then y :: sort_insert x l' else x :: l
  end.

Definition stable_sort (l : list A) : list A := foldr sort_insert [] l.

End StableSort.

Definition hand_compare (a b : Card) : Z :=
  if bool_decide (c_suit a <> c_suit b)
  then getSuitValue (c_suit a) - getSuitValue (c_suit b)
  else getRankValue (c_rank a) - getRankValue (c_rank b).

Definition sortHand (hand : list Card) : list Card := stable_sort hand_compare hand.

Definition isBlackJack (card : Card) : bool :=
  bool_decide (c_rank card = Jack)
  && (bool_decide (c_suit card = Spades) || bool_decide (c_suit card = Clubs)).

Definition isTwo (card : Card) : bool := bool_decide (c_rank card = Two).

(** ** Turn management *)

(** JavaScript's [%] is the truncating remainder, [Z.rem].  (With no player
    at all the source computes [NaN]; every statement below that goes
    through [advanceTurn] is about a state that has a current player.) *)
Definition advanceTurn (state : GameState) (steps : Z) : GameState :=
  let numPlayers := Z.of_nat (length (players state)) in
  let nextIndex := currentPlayerIndex state + direction state * steps in
  let nextIndex := Z.rem (Z.rem nextIndex numPlayers + numPlayers) numPlayers in
  set_currentPlayerIndex nextIndex state.

(** [players[i].hand = h] *)
Definition set_hand (i : nat) (h : list Card) (ps : list Player) : list Player :=
  alter (fun p => mkPlayer (p_id p) (p_name p) (p_avatar p) (p_isBot p) h) i ps.

(** ** Game actions *)

Definition HUMAN_AVATAR : string := "😎".

(** The player object pushed by iteration [i] of the dealing loop of
    [createNewGame].  [shuffledAvatars] is the outcome of sorting the eight
    bot avatars with a random comparator, an arrangement the language
    leaves to the implementation; it is taken as given. *)
Definition new_player (gameMode : GameMode) (playerNames : option (list string))
    (shuffledAvatars : list string) (i : nat) (dealt : list Card) : Player :=
  let isBot := if bool_decide (gameMode = VsBot) then bool_decide (0 < i)%nat else false in
  let hand :=
    if bool_decide (i = 0%nat) || bool_decide (gameMode = LocalMultiplayer)
    then sortHand dealt else dealt in
  let defaultName :=
    if isBot then "Bot " +:+ pretty i
    else if bool_decide (i = 0%nat) then "You" else "Player " +:+ pretty (i + 1)%nat in
  let given :=
    match playerNames with
    | Some names => names !! i
    | None => None
    end in
  let avatar_i := default EmptyString (shuffledAvatars !! i) in
  {| p_id := if isBot then "bot-" +:+ pretty i else "player-" +:+ pretty i;
     p_name := match given with
               | Some (String a n) => String a n
               | _ => defaultName
               end;
     p_avatar := if isBot then avatar_i
                 else if bool_decide (i = 0%nat) then HUMAN_AVATAR else avatar_i;
     p_isBot := isBot;
     p_hand := hand |}.

(** The dealing loop: [n] iterations still to run, the next one with index [i]. *)
Fixpoint deal (gameMode : GameMode) (playerNames : option (list string))
    (shuffledAvatars : list string) (n i : nat) (deck : list Card)
    (players : list Player) : list Player * list Card :=
  match n with
  | O => (players, deck)
  | S n' =>
      let hand := take 7 deck in
      let deck := drop 7 deck in
      deal gameMode playerNames shuffledAvatars n' (S i) deck
        (players ++ [new_player gameMode playerNames shuffledAvatars i hand])
  end.

Definition createNewGame (numPlayers : Z) (difficulty : Difficulty)
    (gameMode : GameMode) (playerNames : option (list string))
    (shuffledAvatars : list string) (g : Rng) : Result GameState :=
  let numPlayers := if bool_decide (numPlayers < 2) then 2 else numPlayers in
  let numPlayers := if bool_decide (4 < numPlayers) then 4 else numPlayers in
  let deck := createDeck in
  let deck := fst (shuffleDeck deck g) in
  let '(players, deck) :=
    deal gameMode playerNames shuffledAvatars (Z.to_nat numPlayers) 0 deck [] in
  match pop deck with
  | None => Raise DeckError
  | Some (deck, startCard) =>
      Ok {| deck := deck;
            discardPile := [startCard];
            players := players;
            currentPlayerIndex := 0;
            direction := 1;
            winnerId := None;
            pendingPickup := 0;
            lastAction := "Game Started! Have fun!";
            difficulty := difficulty;
            gameMode := gameMode;
            pendingSuitChoice := false;
            chosenSuit := None;
            peekingCard := None;
            peekingPlayerId := None;
            pendingSwap := false;
            tournamentConfig := None;
            showPassScreen := bool_decide (gameMode = LocalMultiplayer);
            nextPlayerName := match players !! 0%nat with
                              | Some p => p_name p
                              | None => EmptyString
                              end;
            previousState := None;
            canUndo := false |}
  end.

Definition isValidMove (card topDiscard : Card) (pendingPickup : Z) : bool :=
  if bool_decide (0 < pendingPickup)
  then bool_decide (c_rank card = c_rank topDiscard)
  else bool_decide (c_suit card = c_suit topDiscard)
       || bool_decide (c_rank card = c_rank topDiscard).

Definition clonePlayer (p : Player) : Player :=
  {| p_id := p_id p; p_name := p_name p; p_avatar := p_avatar p;
     p_isBot := p_isBot p; p_hand := p_hand p |}.

Definition cloneState (state : GameState) : GameState :=
  set_players (clonePlayer <$> players state)
    (set_discardPile (discardPile state) (set_deck (deck state) state)).

(** [Number.MAX_SAFE_INTEGER]: up to this magnitude every integer is a
    double, and a sum that stays within it is exact. *)
Definition MAX_SAFE_INTEGER : Z := 2 ^ 53 - 1.

(** The double nearest to the integer [z], a tie going to the even
    significand (IEEE 754 round-to-nearest-even): [z] itself below 2^53 in
    magnitude, and beyond that the nearest multiple of the unit in the last
    place of [z], a power of two that leaves 53 significant bits. *)
Definition nearest_double (z : Z) : Z :=
  let a := Z.abs z in
  if bool_decide (a < 2 ^ 53) then z
  else
    let ulp := 2 ^ (Z.log2 a - 52) in
    let q := a / ulp in
    let r := a `mod` ulp in
    let q :=
      if bool_decide (2 * r < ulp) then q
      else if bool_decide (ulp < 2 * r) then q + 1
      else if Z.even q then q else q + 1 in
    Z.sgn z * (q * ulp).

(** [x + y] on two numbers that hold integers: the exact sum, rounded to a
    double.  (The engine adds only 2 and 5 this way, to [pendingPickup]; such
    a sum never leaves the range of the doubles.) *)
Definition js_add (x y : Z) : Z := nearest_double (x + y).

(** The outcome of the special-card dispatch of [playCard]: the state, the
    action text and the number of steps to advance. *)
Definition card_effect (state : GameState) (ci : nat) (player : Player)
    (card : Card) (actionText : string) (g : Rng) : GameState * string * Z :=
  let n := length (players state) in
  if isTwo card then
    (set_pendingPickup (js_add (pendingPickup state) 2) state, "💥 +2 Cards Attack!", 1)
  else if isBlackJack card then
    (set_pendingPickup (js_add (pendingPickup state) 5) state, "🔥 +5 Cards MEGA Attack!", 1)
  else if bool_decide (c_rank card = Eight) then
    (state, "🚫 SKIP!", if bool_decide (n = 2%nat) then 0 else 2)
  else if bool_decide (c_rank card = Ace) then
    if bool_decide (n = 2%nat) then (state, "↩️ Reverse!", 0)
    else (set_direction (direction state * -1) state, "↩️ Reverse!", 1)
  else if bool_decide (c_rank card = Queen) then
    (set_pendingSuitChoice true state, "👑 WILD! Choose a suit!", 0)
  else if bool_decide (c_rank card = King) then
    if bool_decide (2 < n)%nat then
      (set_pendingSwap true state, "🤴 SWAP! Choose a player!", 0)
    else
      match findIndex (fun p => bool_decide (p_id p <> p_id player)) (players state) with
      | Some oi =>
          match players state !! oi with
          | Some otherPlayer =>
              let tempHand := p_hand player in
              let ps := set_hand ci (p_hand otherPlayer) (players state) in
              let ps := set_hand oi tempHand ps in
              (set_players ps state, "🤴 SWAP! Hands exchanged!", 1)
          | None => (state, actionText, 1)
          end
      | None => (state, actionText, 1)
      end
  else if bool_decide (c_rank card = Seven) then
    let opponents :=
      filter (fun p => p_id p <> p_id player /\ (0 < length (p_hand p))%nat)
             (players state) in
    if bool_decide (0 < length opponents)%nat then
      let '(k, g1) := random_below (length opponents) g in
      match opponents !! k with
      | Some randomOpponent =>
          let '(randomCardIndex, _) :=
            random_below (length (p_hand randomOpponent)) g1 in
          (set_peekingPlayerId (Some (p_id randomOpponent))
             (set_peekingCard (p_hand randomOpponent !! randomCardIndex) state),
           "👁️ PEEK! Saw " +:+ p_name randomOpponent +:+ "'s card!", 1)
      | None => (state, actionText, 1)
      end
    else (state, actionText, 1)
  else (state, actionText, 1).

Definition playCard (currentState : GameState) (cardId : string) (g : Rng)
    : Result GameState :=
  if truthy (winnerId currentState) then Ok currentState else
  let state := cloneState currentState in
  match at_index (players state) (currentPlayerIndex state) with
  | None => Raise TypeError
  | Some player =>
      match findIndex (fun c => bool_decide (c_id c = cardId)) (p_hand player) with
      | None => Ok currentState
      | Some cardIndex =>
          match p_hand player !! cardIndex with
          | None => Raise TypeError
          | Some card =>
              let ci := Z.to_nat (currentPlayerIndex state) in
              let hand := delete cardIndex (p_hand player) in
              let state := set_players (set_hand ci hand (players state)) state in
              let player := mkPlayer (p_id player) (p_name player)
                              (p_avatar player) (p_isBot player) hand in
              let state := set_discardPile (discardPile state ++ [card]) state in
              let actionText :=
                p_name player +:+ " played " +:+ rank_str (c_rank card)
                  +:+ suit_str (c_suit card) in
              if bool_decide (length hand = 0%nat) then
                Ok (set_lastAction (p_name player +:+ " wins! 🎉")
                      (set_winnerId (Some (p_id player)) state))
              else
                let '(state, actionText, stepsToAdvance) :=
                  card_effect state ci player card actionText g in
                let state := set_lastAction actionText state in
                Ok (if bool_decide (0 < stepsToAdvance)
                    then advanceTurn state stepsToAdvance else state)
          end
      end
  end.

(** The drawing loop of [drawCard] with [n] iterations still to run; it
    returns the deck, the discard pile, the acting hand and the number of
    cards drawn.  Leaving the recursion is the [break]. *)
Fixpoint draw_loop (n : nat) (deck discardPile hand : list Card)
    (actuallyDrawn : nat) (g : Rng) : list Card * list Card * list Card * nat :=
  match n with
  | O => (deck, discardPile, hand, actuallyDrawn)
  | S n' =>
      let refill :=
        if bool_decide (length deck = 0%nat) then
          if bool_decide (1 < length discardPile)%nat then
            match pop discardPile with
            | Some (newDeck, topCard) =>
                let '(shuffled, g') := shuffleDeck newDeck g in
                Some (shuffled, [topCard], g')
            | None => None
            end
          else None
        else Some (deck, discardPile, g) in
      match refill with
      | None => (deck, discardPile, hand, actuallyDrawn)
      | Some (deck, discardPile, g) =>
          match pop deck with
          | Some (deck, newCard) =>
              draw_loop n' deck discardPile (hand ++ [newCard]) (S actuallyDrawn) g
          | None => draw_loop n' deck discardPile hand actuallyDrawn g
          end
      end
  end.

Definition drawCard (currentState : GameState) (g : Rng) : Result GameState :=
  if truthy (winnerId currentState) then Ok currentState else
  let state := cloneState currentState in
  match at_index (players state) (currentPlayerIndex state) with
  | None => Raise TypeError
  | Some player =>
      let ci := Z.to_nat (currentPlayerIndex state) in
      let countToDraw :=
        if bool_decide (0 < pendingPickup state) then pendingPickup state else 1 in
      let '(deck, discardPile, hand, actuallyDrawn) :=
        draw_loop (Z.to_nat countToDraw) (deck state) (discardPile state)
          (p_hand player) 0 g in
      let hand := if negb (p_isBot player) then sortHand hand else hand in
      let state :=
        set_players (set_hand ci hand (players state))
          (set_discardPile discardPile (set_deck deck state)) in
      let state :=
        set_lastAction
          (if bool_decide (0 < pendingPickup state)
           then p_name player +:+ " had to pick up " +:+ pretty actuallyDrawn +:+ "! 😅"
           else p_name player +:+ " drew a card") state in
      let state := set_pendingPickup 0 state in
      Ok (advanceTurn state 1)
  end.

(** ** Bot decision logic *)

Inductive Decision :=
  | Draw
  | Play (cardId : string).

(** [suitCounts]: an object used as a map from suit to count.  Its keys are
    kept in the order in which they were first written, which is the order
    [Object.entries] walks them in. *)
Definition SuitCounts := list (Suit * Z).

(** [suitCounts[suit] || 0] *)
Fixpoint suit_count (m : SuitCounts) (suit : Suit) : Z :=
  match m with
  | [] => 0
  | (k, v) :: m' => if bool_decide (k = suit) then v else suit_count m' suit
  end.

(** [suitCounts[suit] = (suitCounts[suit] || 0) + 1] *)
Fixpoint bump (suit : Suit) (m : SuitCounts) : SuitCounts :=
  match m with
  | [] => [(suit, 0 + 1)]
  | (k, v) :: m' =>
      if bool_decide (k = suit) then (k, v + 1) :: m' else (k, v) :: bump suit m'
  end.

Definition count_suits (hand : list Card) : SuitCounts :=
  foldl (fun m card => bump (c_suit card) m) [] hand.

Definition isAttack (card : Card) : bool := isTwo card || isBlackJack card.

Definition hard_compare (shouldAttack : bool) (suitCounts : SuitCounts)
    (a b : Card) : Z :=
  let isAttackA := isAttack a in
  let isAttackB := isAttack b in
  if shouldAttack && (isAttackA && negb isAttackB) then -1
  else if shouldAttack && (negb isAttackA && isAttackB) then 1
  else if negb shouldAttack && (isAttackA && negb isAttackB) then 1
  else if negb shouldAttack && (negb isAttackA && isAttackB) then -1
  else suit_count suitCounts (c_suit a) - suit_count suitCounts (c_suit b).

Definition medium_compare (suitCounts : SuitCounts) (a b : Card) : Z :=
  let isAttackA := isAttack a in
  let isAttackB := isAttack b in
  if isAttackA && negb isAttackB then -1
  else if negb isAttackA && isAttackB then 1
  else suit_count suitCounts (c_suit b) - suit_count suitCounts (c_suit a).

(** [validMoves[0].id] after a sort *)
Definition play_first (validMoves : list Card) : Result Decision :=
  match validMoves with
  | c :: _ => Ok (Play (c_id c))
  | [] => Raise TypeError
  end.

(** In easy mode [Math.random() < 0.3] reads the draw [r] as [r mod 10 < 3]. *)
Definition getBotDecision (state : GameState) (g : Rng) : Result (Decision * Rng) :=
  match at_index (players state) (currentPlayerIndex state) with
  | None => Raise TypeError
  | Some bot =>
      let topCard := last (discardPile state) in
      let pending := pendingPickup state in
      match (match topCard with
             | Some top => Ok (filter (fun card => isValidMove card top pending) (p_hand bot))
             | None => if bool_decide (p_hand bot = []) then Ok [] else Raise TypeError
             end) with
      | Raise e => Raise e
      | Ok validMoves =>
          if bool_decide (length validMoves = 0%nat) then Ok (Draw, g)
          else
            match difficulty state with
            | Easy =>
                let '(mistake, g1) :=
                  if bool_decide (pending = 0)
                  then match g with
                       | [] => (true, [])
                       | r :: g' => (bool_decide (Nat.modulo r 10 < 3)%nat, g')
                       end
                  else (false, g) in
                if mistake then Ok (Draw, g1)
                else
                  let '(randomIndex, g2) := random_below (length validMoves) g1 in
                  match validMoves !! randomIndex with
                  | Some c => Ok (Play (c_id c), g2)
                  | None => Raise TypeError
                  end
            | Hard =>
                let humanHandSize :=
                  match List.find (fun p => negb (p_isBot p)) (players state) with
                  | Some humanPlayer =>
                      if bool_decide (length (p_hand humanPlayer) = 0%nat) then 7%nat
                      else length (p_hand humanPlayer)
                  | None => 7%nat
                  end in
                let shouldAttack := bool_decide (humanHandSize <= 3)%nat in
                let suitCounts := count_suits (p_hand bot) in
                match play_first (stable_sort (hard_compare shouldAttack suitCounts) validMoves) with
                | Ok d => Ok (d, g)
                | Raise e => Raise e
                end
            | Medium =>
                let suitCounts := count_suits (p_hand bot) in
                match play_first (stable_sort (medium_compare suitCounts) validMoves) with
                | Ok d => Ok (d, g)
                | Raise e => Raise e
                end
            end
      end
  end.

Definition performBotTurn (currentState : GameState) (g : Rng) : Result GameState :=
  if truthy (winnerId currentState) then Ok currentState else
  match getBotDecision currentState g with
  | Raise e => Raise e
  | Ok (Play (String a cardId), g') => playCard currentState (String a cardId) g'
  | Ok (_, g') => drawCard currentState g'
  end.

(** ** Power-up card actions *)

Definition chooseSuit (currentState : GameState) (suit : Suit) : GameState :=
  if negb (pendingSuitChoice currentState) then currentState else
  let state := cloneState currentState in
  let state := set_chosenSuit (Some suit) state in
  let state := set_pendingSuitChoice false state in
  let state := set_lastAction ("👑 Changed suit to " +:+ suit_str suit +:+ "!") state in
  advanceTurn state 1.

Definition swapWith (currentState : GameState) (targetPlayerId : string)
    : Result GameState :=
  if negb (pendingSwap currentState) then Ok currentState else
  let state := cloneState currentState in
  match findIndex (fun p => bool_decide (p_id p = targetPlayerId)) (players state) with
  | None => Ok currentState
  | Some ti =>
      match at_index (players state) (currentPlayerIndex state), players state !! ti with
      | Some currentPlayer, Some targetPlayer =>
          let ci := Z.to_nat (currentPlayerIndex state) in
          let tempHand := p_hand currentPlayer in
          let ps := set_hand ci (p_hand targetPlayer) (players state) in
          let ps := set_hand ti tempHand ps in
          let state := set_players ps state in
          let state := set_pendingSwap false state in
          let state :=
            set_lastAction ("🤴 " +:+ p_name currentPlayer +:+ " swapped with "
                              +:+ p_name targetPlayer +:+ "!") state in
          Ok (advanceTurn state 1)
      | _, _ => Raise TypeError
      end
  end.

Definition clearPeek (currentState : GameState) : GameState :=
  let state := cloneState currentState in
  set_peekingPlayerId None (set_peekingCard None state).

Definition confirmPassScreen (currentState : GameState) : GameState :=
  let state := cloneState currentState in
  set_showPassScreen false state.

Definition triggerPassScreen (currentState : GameState) : Result GameState :=
  let state := cloneState currentState in
  match at_index (players state) (currentPlayerIndex state) with
  | None => Raise TypeError
  | Some nextPlayer =>
      Ok (set_nextPlayerName (p_name nextPlayer) (set_showPassScreen true state))
  end.

(** The scan of [Object.entries(suitCounts)] in [botChooseSuit]. *)
Fixpoint scan_best (entries : SuitCounts) (bestSuit : Suit) (maxCount : Z) : Suit :=
  match entries with
  | [] => bestSuit
  | (suit, count) :: rest =>
      if bool_decide (maxCount < count) then scan_best rest suit count
      else scan_best rest bestSuit maxCount
  end.

Definition bestSuitOf (hand : list Card) : Suit :=
  scan_best (count_suits hand) Hearts 0.

Definition botChooseSuit (currentState : GameState) : Result GameState :=
  match at_index (players currentState) (currentPlayerIndex currentState) with
  | None => Raise TypeError
  | Some bot => Ok (chooseSuit currentState (bestSuitOf (p_hand bot)))
  end.

Definition botChooseSwap (currentState : GameState) : Result GameState :=
  match at_index (players currentState) (currentPlayerIndex currentState) with
  | None => Raise TypeError
  | Some bot =>
      let others := filter (fun p => p_id p <> p_id bot) (players currentState) in
      match others with
      | [] => Raise TypeError
      | first :: _ =>
          let target :=
            foldl (fun min p =>
                     if bool_decide (length (p_hand p) < length (p_hand min))%nat
                     then p else min) first others in
          swapWith currentState (p_id target)
      end
  end.

(** ** Undo *)

Definition saveStateForUndo (currentState : GameState) : GameState :=
  let state := cloneState currentState in
  let state :=
    set_previousState
      (Some (set_canUndo false (set_previousState None (cloneState currentState))))
      state in
  set_canUndo true state.

(** [null] is [None]. *)
Definition undoLastMove (currentState : GameState) : option GameState :=
  match canUndo currentState, previousState currentState with
  | true, Some previous =>
      let restoredState := cloneState previous in
      let restoredState := set_canUndo false restoredState in
      let restoredState := set_previousState None restoredState in
      Some (set_lastAction "↩️ Move undone!" restoredState)
  | _, _ => None
  end.

(** ** Reading the model *)

(** The acting player, [state.players[state.currentPlayerIndex]]. *)
Definition current_player (s : GameState) : option Player :=
  at_index (players s) (currentPlayerIndex s).

(** One step of turn order from the current seat, as a seat number. *)
Definition next_index (s : GameState) : Z :=
  (currentPlayerIndex s + direction s) `mod` Z.of_nat (length (players s)).

Definition hand_total (ps : list Player) : nat :=
  sum_list_with (fun p => length (p_hand p)) ps.

(** [deck.length + discardPile.length + Σ hand.length] *)
Definition total_cards (s : GameState) : nat :=
  (length (deck s) + length (discardPile s) + hand_total (players s))%nat.


(** The state [playCard] returns once [card] has been found at [cardIndex]
    of the acting [player]'s hand: the part of its body after the lookup. *)
Definition played (S : GameState) (player : Player) (cardIndex : nat)
    (card : Card) (g : Rng) : GameState :=
  let ci := Z.to_nat (currentPlayerIndex S) in
  let hand := delete cardIndex (p_hand player) in
  let state :=
    set_discardPile (discardPile S ++ [card])
      (set_players (set_hand ci hand (players S)) S) in
  let player' :=
    mkPlayer (p_id player) (p_name player) (p_avatar player) (p_isBot player) hand in
  if bool_decide (length hand = 0%nat) then
    set_lastAction (p_name player +:+ " wins! 🎉")
      (set_winnerId (Some (p_id player)) state)
  else
    let '(state, actionText, stepsToAdvance) :=
      card_effect state ci player' card
        (p_name player +:+ " played " +:+ rank_str (c_rank card)
           +:+ suit_str (c_suit card)) g in
    let state := set_lastAction actionText state in
    if bool_decide (0 < stepsToAdvance)
    then advanceTurn state stepsToAdvance else state.

(** The fields that carry the game itself, as opposed to what is only shown. *)
Definition same_gameplay (s' s : GameState) : Prop :=
  deck s' = deck s /\ discardPile s' = discardPile s /\ players s' = players s
  /\ currentPlayerIndex s' = currentPlayerIndex s /\ direction s' = direction s
  /\ winnerId s' = winnerId s /\ pendingPickup s' = pendingPickup s
  /\ pendingSuitChoice s' = pendingSuitChoice s /\ pendingSwap s' = pendingSwap s
  /\ chosenSuit s' = chosenSuit s.

(** How many cards of a suit a hand holds. *)
Definition count_of (suit : Suit) (hand : list Card) : nat :=
  length (filter (fun c => c_suit c = suit) hand).

(** The suits of a hand in the order in which they first show up in it. *)
Definition first_seen (hand : list Card) : list Suit :=
  foldl (fun seen c => if decide (c_suit c ∈ seen) then seen else seen ++ [c_suit c])
        [] hand.

(** The choice of [botChooseSuit] as the specification words it: the suits
    are walked in their declaration order, the first one to reach the
    largest count wins, and Hearts is the answer for an empty hand. *)
Definition declaration_order_best (hand : list Card) : Suit :=
  scan_best ((fun suit => (suit, Z.of_nat (count_of suit hand))) <$> suit_values)
            Hearts 0.

(** ** Reachable states

    The engine leaves it to its driver to decide when a card may be played.
    [allowed] says in which states the driver calls [playCard] (directly or
    through [performBotTurn]); every other transition may be called in any
    state.  A transition that raises produces no state. *)
Section Reachability.
Variable allowed : GameState -> Prop.

Inductive step : GameState -> GameState -> Prop :=
  | step_playCard s cardId g s' :
      allowed s -> playCard s cardId g = Ok s' -> step s s'
  | step_drawCard s g s' :
      drawCard s g = Ok s' -> step s s'
  | step_performBotTurn s g s' :
      allowed s -> performBotTurn s g = Ok s' -> step s s'
  | step_chooseSuit s suit :
      step s (chooseSuit s suit)
  | step_swapWith s targetPlayerId s' :
      swapWith s targetPlayerId = Ok s' -> step s s'
  | step_clearPeek s :
      step s (clearPeek s)
  | step_confirmPassScreen s :
      step s (confirmPassScreen s)
  | step_triggerPassScreen s s' :
      triggerPassScreen s = Ok s' -> step s s'
  | step_botChooseSuit s s' :
      botChooseSuit s = Ok s' -> step s s'
  | step_botChooseSwap s s' :
      botChooseSwap s = Ok s' -> step s s'
  | step_saveStateForUndo s :
      step s (saveStateForUndo s)
  | step_undoLastMove s s' :
      undoLastMove s = Some s' -> step s s'.

Inductive reachable : GameState -> Prop :=
  | reachable_new numPlayers difficulty gameMode playerNames shuffledAvatars g s :
      createNewGame numPlayers difficulty gameMode playerNames shuffledAvatars g = Ok s ->
      reachable s
  | reachable_step s s' :
      reachable s -> step s s' -> reachable s'.

End Reachability.

(** The driver calls [playCard] whenever it likes. *)
Definition any_time (s : GameState) : Prop := True.

(** The driver calls [playCard] only when no choice is pending. *)
Definition no_choice_pending (s : GameState) : Prop :=
  pendingSuitChoice s = false /\ pendingSwap s = false.

(** What the engine maintains of a state and of its undo snapshot. *)
Definition well_formed (s : GameState) : Prop :=
  total_cards s = 52%nat
  /\ 0 <= currentPlayerIndex s < Z.of_nat (length (players s)).

(** An attack is made of the cards played since the last draw: the pending
    pickup is at most five for each card on the discard pile. *)
Definition pickup_bounded (s : GameState) : Prop :=
  0 <= pendingPickup s <= 5 * Z.of_nat (length (discardPile s)).

Definition exclusive_choice (s : GameState) : Prop :=
  ~ (pendingSuitChoice s = true /\ pendingSwap s = true).


(** ** Scenarios *)

(** The scenario of the specification: the last card 5♦ on a 5♣. *)
Definition win_scenario : GameState :=
  {| deck := [mkCard "♠-9" Spades Nine];
     discardPile := [mkCard "♣-5" Clubs Five];
     players := [mkPlayer "player-0" "You" "😎" false [mkCard "♦-5" Diamonds Five];
                 mkPlayer "bot-1" "Bot 1" "🐯" true [mkCard "♥-3" Hearts Three]];
     currentPlayerIndex := 0; direction := 1; winnerId := None;
     pendingPickup := 0; lastAction := EmptyString;
     difficulty := Medium; gameMode := VsBot;
     pendingSuitChoice := false; chosenSuit := None; peekingCard := None;
     peekingPlayerId := None; pendingSwap := false; tournamentConfig := None;
     showPassScreen := false; nextPlayerName := "You";
     previousState := None; canUndo := false |}.

(** Three players, the second one to move under an attack of 2, holding a 2
    and the Jack of Spades. *)
Definition stack_scenario : GameState :=
  {| deck := [mkCard "♠-9" Spades Nine];
     discardPile := [mkCard "♠-2" Spades Two];
     players := [mkPlayer "player-0" "You" "😎" false [mkCard "♦-5" Diamonds Five];
                 mkPlayer "bot-1" "Bot 1" "🐯" true
                   [mkCard "♥-2" Hearts Two; mkCard "♠-J" Spades Jack;
                    mkCard "♥-9" Hearts Nine];
                 mkPlayer "bot-2" "Bot 2" "🐼" true [mkCard "♥-3" Hearts Three]];
     currentPlayerIndex := 1; direction := 1; winnerId := None;
     pendingPickup := 2; lastAction := EmptyString;
     difficulty := Medium; gameMode := VsBot;
     pendingSuitChoice := true; chosenSuit := None; peekingCard := None;
     peekingPlayerId := None; pendingSwap := false; tournamentConfig := None;
     showPassScreen := false; nextPlayerName := "You";
     previousState := None; canUndo := false |}.

(** Two players, the bot to move under an attack of 5, with one card in the
    deck and three on the discard pile. *)
Definition exhaustion_scenario : GameState :=
  {| deck := [mkCard "♠-9" Spades Nine];
     discardPile := [mkCard "♥-4" Hearts Four; mkCard "♥-6" Hearts Six;
                     mkCard "♣-J" Clubs Jack];
     players := [mkPlayer "player-0" "You" "😎" false [mkCard "♦-5" Diamonds Five];
                 mkPlayer "bot-1" "Bot 1" "🐯" true [mkCard "♥-3" Hearts Three]];
     currentPlayerIndex := 1; direction := 1; winnerId := None;
     pendingPickup := 5; lastAction := EmptyString;
     difficulty := Medium; gameMode := VsBot;
     pendingSuitChoice := false; chosenSuit := None; peekingCard := None;
     peekingPlayerId := None; pendingSwap := false; tournamentConfig := None;
     showPassScreen := false; nextPlayerName := "You";
     previousState := None; canUndo := false |}.

Definition BOT_AVATARS : list string :=
  ["🐯"; "🐼"; "🦊"; "🐨"; "🦁"; "🐸"; "🦄"; "🐙"].

(** Draws for [shuffleDeck] on 52 cards: at index [i] the draw picks [i]
    itself, which leaves the card in place, except at the indices listed in
    [picks], where it picks the index given there. *)
Definition draws_with (picks : list (nat * nat)) : Rng :=
  (fun i => default i (snd <$> List.find (fun p => bool_decide (p.1 = i)) picks))
    <$> rev (seq 1 51).

(** A three-player game against bots in which the shuffle hands the human
    the Queen and the King of Hearts among seven Hearts. *)
Definition three_player_opening : Result GameState :=
  createNewGame 3 Medium VsBot None BOT_AVATARS
    (draws_with [(11, 0); (10, 1)]%nat).

(** A two-player game in which the shuffle hands the human the Queen of
    Hearts, the four Eights and two Aces. *)
Definition two_player_opening : Result GameState :=
  createNewGame 2 Medium VsBot None BOT_AVATARS
    (draws_with [(45, 0); (32, 1); (25, 2); (19, 3); (12, 4); (10, 5)]%nat).

(** Playing the given card ids one after the other, as long as the engine returns. *)
Fixpoint play_all (r : Result GameState) (cardIds : list string) : Result GameState :=
  match cardIds with
  | [] => r
  | cardId :: rest =>
      match r with
      | Ok s => play_all (playCard s cardId []) rest
      | Raise e => Raise e
      end
  end.

(** The human plays the Queen and then, the suit choice still open, the King. *)
Definition queen_then_king : Result GameState :=
  play_all three_player_opening ["♥-Q"; "♥-K"].

(** The human plays the Queen and then, the suit choice still open, the rest
    of the hand; in a two-player game Eights and Aces keep the turn. *)
Definition win_with_open_choice : Result GameState :=
  play_all two_player_opening ["♥-Q"; "♥-8"; "♦-8"; "♣-8"; "♠-8"; "♥-A"; "♦-A"].

(** The bot to choose a suit, holding one Spade and one Heart in that order. *)
Definition tie_scenario : GameState :=
  {| deck := [mkCard "♠-9" Spades Nine];
     discardPile := [mkCard "♣-5" Clubs Five; mkCard "♦-Q" Diamonds Queen];
     players := [mkPlayer "player-0" "You" "😎" false [mkCard "♦-5" Diamonds Five];
                 mkPlayer "bot-1" "Bot 1" "🐯" true
                   [mkCard "♠-A" Spades Ace; mkCard "♥-2" Hearts Two]];
     currentPlayerIndex := 1; direction := 1; winnerId := None;
     pendingPickup := 0; lastAction := "👑 WILD! Choose a suit!";
     difficulty := Medium; gameMode := VsBot;
     pendingSuitChoice := true; chosenSuit := None; peekingCard := None;
     peekingPlayerId := None; pendingSwap := false; tournamentConfig := None;
     showPassScreen := false; nextPlayerName := "You";
     previousState := None; canUndo := false |}.
(** * Basic facts *)

(** Reading a field of an updated state. *)
Ltac fields :=
  cbn [deck discardPile players currentPlayerIndex direction winnerId
       pendingPickup lastAction difficulty gameMode pendingSuitChoice chosenSuit
       peekingCard peekingPlayerId pendingSwap tournamentConfig showPassScreen
       nextPlayerName previousState canUndo
       set_deck set_discardPile set_players set_currentPlayerIndex set_direction
       set_winnerId set_pendingPickup set_lastAction set_pendingSuitChoice
       set_chosenSuit set_peekingCard set_peekingPlayerId set_pendingSwap
       set_showPassScreen set_nextPlayerName set_previousState set_canUndo
       fst snd] in *.

Lemma clonePlayer_id (p : Player) : clonePlayer p = p.
Proof. by destruct p. Qed.

Lemma cloneState_id (s : GameState) : cloneState s = s.
Proof.
  destruct s as [dk dp ps]; unfold cloneState, set_players, set_discardPile, set_deck; cbn.
  f_equal. induction ps as [|p ps IH]; cbn; [done|].
  by rewrite clonePlayer_id, IH.
Qed.

Lemma at_index_Some {A} (l : list A) (i : Z) (x : A) :
  at_index l i = Some x -> 0 <= i /\ l !! Z.to_nat i = Some x.
Proof. unfold at_index. case_bool_decide; [done|]. intros Hx; split; [lia|done]. Qed.

Lemma at_index_bounds {A} (l : list A) (i : Z) (x : A) :
  at_index l i = Some x -> 0 <= i < Z.of_nat (length l).
Proof.
  intros H. apply at_index_Some in H as [H0 H1]. apply lookup_lt_Some in H1. lia.
Qed.

Lemma findIndex_Some {A} (f : A -> bool) (l : list A) (i : nat) :
  findIndex f l = Some i -> exists x, l !! i = Some x /\ f x = true.
Proof.
  revert i. induction l as [|y l IH]; intros i; cbn; [done|].
  destruct (f y) eqn:Hy.
  - intros [= <-]. eauto.
  - destruct (findIndex f l) as [k|]; cbn; [|done].
    intros [= <-]. destruct (IH k eq_refl) as (x & ? & ?). eauto.
Qed.

Lemma pop_Some {A} (l r : list A) (x : A) : pop l = Some (r, x) -> l = r ++ [x].
Proof.
  unfold pop. destruct (rev l) as [|y t] eqn:E; [done|].
  intros [= <- <-]. rewrite <- (rev_involutive l), E. done.
Qed.

Lemma pop_snoc {A} (r : list A) (x : A) : pop (r ++ [x]) = Some (r, x).
Proof. unfold pop. rewrite rev_app_distr. cbn. by rewrite rev_involutive. Qed.

Lemma pop_nonempty {A} (l : list A) :
  l <> [] -> exists r x, pop l = Some (r, x) /\ l = r ++ [x].
Proof.
  intros Hl. destruct (pop l) as [[r x]|] eqn:E.
  - exists r, x. split; [done|]. by apply pop_Some.
  - unfold pop in E. destruct (rev l) eqn:E'; [|done].
    apply (f_equal (@rev A)) in E'. rewrite rev_involutive in E'. done.
Qed.

(** JavaScript's double remainder is the mathematical modulus. *)
Lemma js_wrap (x n : Z) : 0 < n -> Z.rem (Z.rem x n + n) n = x `mod` n.
Proof.
  intros Hn.
  assert (Hr : - n < Z.rem x n < n).
  { destruct (Z.le_gt_cases 0 x).
    - pose proof (Z.rem_bound_pos x n ltac:(lia) ltac:(lia)); lia.
    - pose proof (Z.rem_bound_pos (- x) n ltac:(lia) ltac:(lia)) as Hb.
      rewrite Z.rem_opp_l in Hb by lia. lia. }
  rewrite Z.rem_mod_nonneg by lia.
  pose proof (Z.quot_rem' x n) as Hx.
  replace (Z.rem x n + n) with (Z.rem x n + 1 * n) by lia.
  rewrite Z.mod_add by lia.
  rewrite Hx at 2.
  by rewrite Z.add_comm, Z.mul_comm, Z.mod_add by lia.
Qed.

Lemma advanceTurn_one (s : GameState) :
  (0 < length (players s))%nat ->
  currentPlayerIndex (advanceTurn s 1) = next_index s.
Proof.
  intros Hn. unfold advanceTurn, next_index. cbn.
  rewrite Z.mul_1_r. apply js_wrap. lia.
Qed.

Lemma advanceTurn_valid (s : GameState) (steps : Z) :
  (0 < length (players s))%nat ->
  0 <= currentPlayerIndex (advanceTurn s steps) < Z.of_nat (length (players s)).
Proof.
  intros Hn. unfold advanceTurn. cbn. rewrite js_wrap by lia.
  apply Z.mod_pos_bound. lia.
Qed.

Lemma advanceTurn_index (s : GameState) (steps : Z) :
  (0 < length (players s))%nat ->
  currentPlayerIndex (advanceTurn s steps)
  = (currentPlayerIndex s + direction s * steps) `mod` Z.of_nat (length (players s)).
Proof. intros Hn. unfold advanceTurn. cbn. apply js_wrap. lia. Qed.

(** Within the safe integers the sum of two numbers is the exact sum. *)
Lemma js_add_exact (x y : Z) :
  Z.abs (x + y) <= MAX_SAFE_INTEGER -> js_add x y = x + y.
Proof.
  unfold js_add, nearest_double, MAX_SAFE_INTEGER. intros Hsafe.
  rewrite bool_decide_eq_true_2; [done|lia].
Qed.

(** Beyond them it is rounded, to the even neighbour on a tie. *)
Lemma js_add_rounds :
  js_add MAX_SAFE_INTEGER 2 = 2 ^ 53
  /\ js_add (2 ^ 53) 2 = 2 ^ 53 + 2
  /\ js_add (2 ^ 53) 5 = 2 ^ 53 + 4
  /\ js_add (2 ^ 53 + 2) 5 = 2 ^ 53 + 8
  /\ js_add (2 ^ 54) 2 = 2 ^ 54
  /\ js_add (- 2 ^ 54) 5 = - 2 ^ 54 + 4.
Proof. by vm_compute. Qed.

(** Settles the comparisons between known ranks and suits in the goal. *)
Ltac decide_consts :=
  repeat match goal with
  | |- context [@bool_decide (?a = ?b) ?d] =>
      first [ rewrite (@bool_decide_eq_true_2 (a = b) d) by done
            | rewrite (@bool_decide_eq_false_2 (a = b) d) by done ]
  end;
  cbn [andb orb negb].

(** * playCard *)

#[local] Arguments String.append : simpl never.
#[local] Arguments js_add : simpl never.
#[local] Arguments pretty : simpl never.
#[local] Arguments set_hand : simpl never.
#[local] Arguments advanceTurn : simpl never.

(** What [playCard] computes once the card has been found in the acting hand. *)
Lemma playCard_found (S : GameState) (cardId : string) (g : Rng)
    (player : Player) (cardIndex : nat) (card : Card) :
  truthy (winnerId S) = false ->
  current_player S = Some player ->
  findIndex (fun c => bool_decide (c_id c = cardId)) (p_hand player) = Some cardIndex ->
  p_hand player !! cardIndex = Some card ->
  playCard S cardId g = Ok (played S player cardIndex card g).
Proof.
  intros Hw Hp Hi Hc. unfold playCard, played, current_player in *.
  rewrite Hw, cloneState_id, Hp, Hi, Hc. cbn zeta.
  case_bool_decide; [done|].
  by destruct (card_effect _ _ _ _ _ _) as [[st txt] k].
Qed.

(** The ways in which [playCard] returns. *)
Lemma playCard_Ok (S : GameState) (cardId : string) (g : Rng) (S' : GameState) :
  playCard S cardId g = Ok S' ->
  S' = S
  \/ exists player cardIndex card,
       truthy (winnerId S) = false /\ current_player S = Some player
       /\ p_hand player !! cardIndex = Some card
       /\ S' = played S player cardIndex card g.
Proof.
  intros Hplay. destruct (truthy (winnerId S)) eqn:Hw.
  { unfold playCard in Hplay. rewrite Hw in Hplay. left. congruence. }
  destruct (current_player S) as [player|] eqn:Hp.
  2:{ unfold playCard, current_player in *.
      by rewrite Hw, cloneState_id, Hp in Hplay. }
  destruct (findIndex (fun c => bool_decide (c_id c = cardId)) (p_hand player))
    as [cardIndex|] eqn:Hi.
  2:{ unfold playCard, current_player in *.
      rewrite Hw, cloneState_id, Hp, Hi in Hplay. left. congruence. }
  destruct (findIndex_Some _ _ _ Hi) as (card & Hc & _).
  rewrite (playCard_found S cardId g player cardIndex card Hw Hp Hi Hc) in Hplay.
  right. exists player, cardIndex, card. repeat split; try done. congruence.
Qed.

Lemma set_hand_length (i : nat) (h : list Card) (ps : list Player) :
  length (set_hand i h ps) = length ps.
Proof. unfold set_hand. by rewrite length_alter. Qed.

Lemma set_hand_lookup (i : nat) (h : list Card) (ps : list Player) (p : Player) :
  ps !! i = Some p ->
  set_hand i h ps !! i = Some (mkPlayer (p_id p) (p_name p) (p_avatar p) (p_isBot p) h).
Proof. intros Hp. unfold set_hand. by rewrite list_lookup_alter_eq, Hp. Qed.

Lemma set_hand_lookup_ne (i j : nat) (h : list Card) (ps : list Player) :
  i <> j -> set_hand i h ps !! j = ps !! j.
Proof. intros Hij. unfold set_hand. by rewrite list_lookup_alter_ne. Qed.

(** C2 (legality): under an active attack only a rank match is legal,
    otherwise a suit match or a rank match is. *)
Theorem isValidMove_legality (card topDiscard : Card) (pendingPickup : Z) :
  0 <= pendingPickup ->
  isValidMove card topDiscard pendingPickup = true <->
    (0 < pendingPickup /\ c_rank card = c_rank topDiscard)
    \/ (pendingPickup = 0
        /\ (c_suit card = c_suit topDiscard \/ c_rank card = c_rank topDiscard)).
Proof.
  intros Hpp. unfold isValidMove. case_bool_decide as Hpos.
  - rewrite bool_decide_eq_true. split; [auto|]. intros [[_ ?]|[? _]]; [done|lia].
  - rewrite orb_true_iff, !bool_decide_eq_true. split.
    + intros H. right. split; [lia|done].
    + intros [[? _]|[_ ?]]; [lia|done].
Qed.

(** Under an attack a card of the right suit but another rank does not defend. *)
Lemma isValidMove_witness :
  isValidMove (mkCard "♥-9" Hearts Nine) (mkCard "♥-2" Hearts Two) 2 = true <->
    (0 < 2 /\ Nine = Two) \/ (2 = 0 /\ (Hearts = Hearts \/ Nine = Two)).
Proof.
  apply (isValidMove_legality (mkCard "♥-9" Hearts Nine) (mkCard "♥-2" Hearts Two) 2).
  lia.
Defined.

(** What the special-card dispatch can and cannot touch. *)
Lemma card_effect_frame (state : GameState) (ci : nat) (player : Player)
    (card : Card) (txt : string) (g : Rng) :
  let st := (card_effect state ci player card txt g).1.1 in
  deck st = deck state /\ discardPile st = discardPile state
  /\ winnerId st = winnerId state
  /\ currentPlayerIndex st = currentPlayerIndex state
  /\ previousState st = previousState state /\ canUndo st = canUndo state
  /\ length (players st) = length (players state)
  /\ (players st = players state
      \/ (c_rank card = King /\ ~ (2 < length (players state))%nat
          /\ exists oi other,
               findIndex (fun p => bool_decide (p_id p <> p_id player)) (players state)
                 = Some oi
               /\ players state !! oi = Some other
               /\ players st
                  = set_hand oi (p_hand player)
                      (set_hand ci (p_hand other) (players state)))).
Proof.
  unfold card_effect.
  destruct (isTwo card); [cbn; tauto|].
  destruct (isBlackJack card); [cbn; tauto|].
  case_bool_decide; [cbn; tauto|].
  case_bool_decide; [case_bool_decide; cbn; tauto|].
  case_bool_decide; [cbn; tauto|].
  case_bool_decide as HK.
  { case_bool_decide as Hn; [cbn; tauto|].
    destruct (findIndex _ (players state)) as [oi|] eqn:Hoi; [|cbn; tauto].
    destruct (players state !! oi) as [other|] eqn:Ho; [|cbn; tauto].
    cbn. rewrite !set_hand_length. repeat split; try done.
    right. repeat split; try done. by exists oi, other. }
  case_bool_decide; [|cbn; tauto].
  case_bool_decide; [|cbn; tauto].
  destruct (random_below _ g) as [k g1].
  destruct (_ !! k) as [opp|]; [|cbn; tauto].
  destruct (random_below _ g1) as [rc ?]. cbn. tauto.
Qed.

(** The pending flags after the dispatch: a Queen raises the suit choice,
    a King (with more than two players) raises the swap choice, and no
    branch touches the other flag. *)
Lemma card_effect_flags (state : GameState) (ci : nat) (player : Player)
    (card : Card) (txt : string) (g : Rng) :
  let st := (card_effect state ci player card txt g).1.1 in
  (pendingSuitChoice st = pendingSuitChoice state /\ pendingSwap st = pendingSwap state)
  \/ (pendingSuitChoice st = true /\ pendingSwap st = pendingSwap state)
  \/ (pendingSuitChoice st = pendingSuitChoice state /\ pendingSwap st = true).
Proof.
  unfold card_effect.
  repeat first
    [ progress cbn; tauto
    | case_bool_decide
    | match goal with
      | |- context [if ?b then _ else _] => destruct b
      | |- context [match ?x with _ => _ end] => destruct x
      end ].
Qed.

(** C4 (win check): when the played card was the acting player's last one,
    [playCard] names that player the winner, writes the terminal
    [lastAction] and applies no card effect, whatever the card is: the
    pending pickup, both pending choices, the direction, the current seat,
    the deck and every other hand stay as they were. *)
Theorem playCard_win_no_effect (S : GameState) (cardId : string) (g : Rng)
    (player : Player) (cardIndex : nat) :
  truthy (winnerId S) = false ->
  current_player S = Some player ->
  findIndex (fun c => bool_decide (c_id c = cardId)) (p_hand player) = Some cardIndex ->
  delete cardIndex (p_hand player) = [] ->
  exists card S',
    p_hand player !! cardIndex = Some card /\ c_id card = cardId
    /\ playCard S cardId g = Ok S'
    /\ winnerId S' = Some (p_id player)
    /\ lastAction S' = p_name player +:+ " wins! 🎉"
    /\ pendingPickup S' = pendingPickup S
    /\ pendingSuitChoice S' = pendingSuitChoice S
    /\ pendingSwap S' = pendingSwap S
    /\ direction S' = direction S
    /\ currentPlayerIndex S' = currentPlayerIndex S
    /\ chosenSuit S' = chosenSuit S
    /\ peekingCard S' = peekingCard S
    /\ deck S' = deck S
    /\ discardPile S' = discardPile S ++ [card]
    /\ players S' = set_hand (Z.to_nat (currentPlayerIndex S)) [] (players S)
    /\ forall j, j <> Z.to_nat (currentPlayerIndex S) -> players S' !! j = players S !! j.
Proof.
  intros Hw Hp Hi Hd.
  destruct (findIndex_Some _ _ _ Hi) as (card & Hc & Hid).
  apply bool_decide_eq_true in Hid.
  exists card. eexists. split; [done|]. split; [done|].
  rewrite (playCard_found S cardId g player cardIndex card Hw Hp Hi Hc).
  split; [reflexivity|].
  unfold played. cbn zeta. rewrite Hd. cbn [length]. rewrite bool_decide_eq_true_2 by done.
  fields. repeat split. intros j Hj. by rewrite set_hand_lookup_ne.
Qed.


Lemma playCard_win_no_effect_witness :
  exists S', playCard win_scenario "♦-5" [] = Ok S'
             /\ winnerId S' = Some "player-0"
             /\ lastAction S' = "You wins! 🎉"
             /\ deck S' = deck win_scenario
             /\ players S' !! 1%nat = players win_scenario !! 1%nat.
Proof.
  destruct (playCard_win_no_effect win_scenario "♦-5" []
              (mkPlayer "player-0" "You" "😎" false [mkCard "♦-5" Diamonds Five]) 0%nat
              eq_refl eq_refl eq_refl eq_refl)
    as (card & S' & _ & _ & Hplay & Hwin & Hact & _ & _ & _ & _ & _ & _ & _ & Hdeck & _ & _ & Hothers).
  exists S'. repeat split; try done. apply Hothers. done.
Defined.

Lemma current_player_length (S : GameState) (player : Player) :
  current_player S = Some player -> (0 < length (players S))%nat.
Proof. intros Hp. apply at_index_bounds in Hp. lia. Qed.

(** The body of [played] when the hand is not emptied. *)
Lemma played_continue (S : GameState) (player : Player) (cardIndex : nat)
    (card : Card) (g : Rng) :
  delete cardIndex (p_hand player) <> [] ->
  played S player cardIndex card g =
    let ci := Z.to_nat (currentPlayerIndex S) in
    let hand := delete cardIndex (p_hand player) in
    let '(state, actionText, stepsToAdvance) :=
      card_effect
        (set_discardPile (discardPile S ++ [card])
           (set_players (set_hand ci hand (players S)) S))
        ci (mkPlayer (p_id player) (p_name player) (p_avatar player)
              (p_isBot player) hand) card
        (p_name player +:+ " played " +:+ rank_str (c_rank card)
           +:+ suit_str (c_suit card)) g in
    if bool_decide (0 < stepsToAdvance)
    then advanceTurn (set_lastAction actionText state) stepsToAdvance
    else set_lastAction actionText state.
Proof.
  intros Hne. unfold played. cbn zeta.
  rewrite bool_decide_eq_false_2; [done|].
  intros Hz. apply Hne. by apply nil_length_inv.
Qed.

(** The numbers and flags after the dispatch, field by field, and the
    number of steps it asks for. *)
Lemma card_effect_fields (state : GameState) (ci : nat) (player : Player)
    (card : Card) (txt : string) (g : Rng) :
  let n := length (players state) in
  let st := (card_effect state ci player card txt g).1.1 in
  let k := (card_effect state ci player card txt g).2 in
  pendingPickup st
  = (if isTwo card then js_add (pendingPickup state) 2
     else if isBlackJack card then js_add (pendingPickup state) 5
     else pendingPickup state)
  /\ pendingSuitChoice st = pendingSuitChoice state || bool_decide (c_rank card = Queen)
  /\ pendingSwap st
     = pendingSwap state || (bool_decide (c_rank card = King) && bool_decide (2 < n)%nat)
  /\ direction st
     = (if bool_decide (c_rank card = Ace) && negb (bool_decide (n = 2%nat))
        then - direction state else direction state)
  /\ k = match c_rank card with
         | Queen => 0
         | King => if bool_decide (2 < n)%nat then 0 else 1
         | Eight | Ace => if bool_decide (n = 2%nat) then 0 else
                          if bool_decide (c_rank card = Eight) then 2 else 1
         | _ => 1
         end.
Proof.
  cbn zeta. unfold card_effect, isTwo, isBlackJack. cbv zeta.
  destruct card as [id suit rank]. cbn [c_rank c_suit].
  destruct rank; decide_consts;
    repeat first
      [ progress cbn [andb orb negb]
      | case_bool_decide
      | match goal with
        | |- context [match ?x with _ => _ end] => destruct x
        end ];
    fields; cbn [andb orb negb]; rewrite ?orb_false_r, ?orb_true_r;
    split_and!; try done; lia.
Qed.

(** The numbers and flags of the state [playCard] returns for a card that
    does not empty the hand. *)
Lemma played_effect (S : GameState) (player : Player) (cardIndex : nat)
    (card : Card) (g : Rng) :
  current_player S = Some player ->
  delete cardIndex (p_hand player) <> [] ->
  let S' := played S player cardIndex card g in
  let n := length (players S) in
  winnerId S' = winnerId S
  /\ pendingPickup S'
     = (if isTwo card then js_add (pendingPickup S) 2
        else if isBlackJack card then js_add (pendingPickup S) 5
        else pendingPickup S)
  /\ pendingSuitChoice S' = pendingSuitChoice S || bool_decide (c_rank card = Queen)
  /\ pendingSwap S'
     = pendingSwap S || (bool_decide (c_rank card = King) && bool_decide (2 < n)%nat)
  /\ direction S'
     = (if bool_decide (c_rank card = Ace) && negb (bool_decide (n = 2%nat))
        then - direction S else direction S)
  /\ currentPlayerIndex S'
     = match c_rank card with
       | Queen => currentPlayerIndex S
       | King => if bool_decide (2 < n)%nat then currentPlayerIndex S else next_index S
       | Eight => if bool_decide (n = 2%nat) then currentPlayerIndex S
                  else (currentPlayerIndex S + 2 * direction S) `mod` Z.of_nat n
       | Ace => if bool_decide (n = 2%nat) then currentPlayerIndex S
                else (currentPlayerIndex S - direction S) `mod` Z.of_nat n
       | _ => next_index S
       end.
Proof.
  intros Hp Hne. cbn zeta.
  pose proof (current_player_length S player Hp) as Hlen.
  rewrite played_continue by done. cbn zeta.
  match goal with
  | |- context [card_effect ?st ?ci ?pl ?c ?txt ?g] =>
      pose proof (card_effect_frame st ci pl c txt g) as Hframe;
      pose proof (card_effect_fields st ci pl c txt g) as Hfields;
      destruct (card_effect st ci pl c txt g) as [[st' txt'] k]
  end.
  cbn zeta in Hframe, Hfields. fields. rewrite set_hand_length in *.
  destruct Hframe as (_ & _ & Hwin & Hidx & _ & _ & Hn & _).
  destruct Hfields as (Hpp & Hq & Hk & Hdir & Hsteps).
  destruct (bool_decide (0 < k)) eqn:Hpos.
  - apply bool_decide_eq_true in Hpos.
    rewrite advanceTurn_index by (fields; lia).
    unfold advanceTurn. fields.
    rewrite Hwin, Hpp, Hq, Hk, Hdir, Hidx, Hn. split_and!; try done.
    clear Hpp Hq Hk Hdir. rewrite Hsteps in Hpos |- *. clear Hsteps.
    revert Hpos. unfold next_index.
    destruct (c_rank card); decide_consts;
      repeat first [case_bool_decide | progress cbn [andb orb negb]];
      intros Hpos; try lia; f_equal; lia.
  - apply bool_decide_eq_false in Hpos. fields.
    rewrite Hwin, Hpp, Hq, Hk, Hdir, Hidx. split_and!; try done.
    clear Hpp Hq Hk Hdir. rewrite Hsteps in Hpos. clear Hsteps. revert Hpos.
    destruct (c_rank card); decide_consts;
      repeat first [case_bool_decide | progress cbn [andb orb negb]];
      intros Hpos; try lia; done.
Qed.

(** C6 (attack stacking): a 2 that does not empty the hand adds 2 to the
    pending pickup and passes the turn one seat on; a Jack of Spades or Clubs
    adds 5 and passes the turn one seat on.  The additions are those of the
    language, on doubles: they are the exact sums as long as these stay
    within the safe integers, as they do in every state of a game.  From a
    pending pickup of 2 a defending 2 leaves 4 for the next player. *)
Theorem playCard_attack_stacking (S : GameState) (cardId : string) (g : Rng)
    (player : Player) (cardIndex : nat) (card : Card) :
  truthy (winnerId S) = false ->
  current_player S = Some player ->
  findIndex (fun c => bool_decide (c_id c = cardId)) (p_hand player) = Some cardIndex ->
  p_hand player !! cardIndex = Some card ->
  delete cardIndex (p_hand player) <> [] ->
  (c_rank card = Two ->
   exists S', playCard S cardId g = Ok S'
              /\ pendingPickup S' = js_add (pendingPickup S) 2
              /\ (Z.abs (pendingPickup S + 2) <= MAX_SAFE_INTEGER ->
                  pendingPickup S' = pendingPickup S + 2)
              /\ currentPlayerIndex S' = next_index S
              /\ direction S' = direction S
              /\ (pendingPickup S = 2 -> pendingPickup S' = 4))
  /\ (c_rank card = Jack -> c_suit card = Spades \/ c_suit card = Clubs ->
      exists S', playCard S cardId g = Ok S'
                 /\ pendingPickup S' = js_add (pendingPickup S) 5
                 /\ (Z.abs (pendingPickup S + 5) <= MAX_SAFE_INTEGER ->
                     pendingPickup S' = pendingPickup S + 5)
                 /\ currentPlayerIndex S' = next_index S
                 /\ direction S' = direction S).
Proof.
  intros Hw Hp Hi Hc Hne.
  rewrite (playCard_found S cardId g player cardIndex card Hw Hp Hi Hc).
  destruct (played_effect S player cardIndex card g Hp Hne)
    as (_ & Hpp & _ & _ & Hdir & Hidx).
  unfold isTwo, isBlackJack in Hpp. split.
  - intros HTwo. rewrite HTwo in Hpp, Hdir, Hidx. revert Hpp Hdir. decide_consts.
    intros Hpp Hdir. eexists. split; [done|]. split_and!; try done.
    + intros Hsafe. by rewrite Hpp, js_add_exact.
    + intros Htwo. rewrite Hpp, Htwo. by vm_compute.
  - intros HJ Hsuit. rewrite HJ in Hpp, Hdir, Hidx. revert Hpp Hdir. decide_consts.
    assert (Hb : bool_decide (c_suit card = Spades) || bool_decide (c_suit card = Clubs)
                 = true).
    { apply orb_true_iff. by rewrite !bool_decide_eq_true. }
    rewrite Hb. intros Hpp Hdir. eexists. split; [done|]. split_and!; try done.
    intros Hsafe. by rewrite Hpp, js_add_exact.
Qed.

Lemma playCard_attack_stacking_witness :
  (exists S', playCard stack_scenario "♥-2" [] = Ok S'
              /\ pendingPickup S' = 4 /\ currentPlayerIndex S' = 2)
  /\ (exists S', playCard stack_scenario "♠-J" [] = Ok S'
                 /\ pendingPickup S' = 7 /\ currentPlayerIndex S' = 2).
Proof.
  split.
  - destruct (playCard_attack_stacking stack_scenario "♥-2" []
                (mkPlayer "bot-1" "Bot 1" "🐯" true
                   [mkCard "♥-2" Hearts Two; mkCard "♠-J" Spades Jack;
                    mkCard "♥-9" Hearts Nine])
                0%nat (mkCard "♥-2" Hearts Two)
                eq_refl eq_refl eq_refl eq_refl ltac:(discriminate))
      as [HTwo _].
    destruct (HTwo eq_refl) as (S' & Hplay & _ & _ & Hidx & _ & Hfour).
    exists S'. split; [exact Hplay|]. split; [by apply Hfour|exact Hidx].
  - destruct (playCard_attack_stacking stack_scenario "♠-J" []
                (mkPlayer "bot-1" "Bot 1" "🐯" true
                   [mkCard "♥-2" Hearts Two; mkCard "♠-J" Spades Jack;
                    mkCard "♥-9" Hearts Nine])
                1%nat (mkCard "♠-J" Spades Jack)
                eq_refl eq_refl eq_refl eq_refl ltac:(discriminate))
      as [_ HJack].
    destruct (HJack eq_refl (or_introl eq_refl)) as (S' & Hplay & _ & Hpp & Hidx & _).
    exists S'. split; [exact Hplay|]. split; [|exact Hidx].
    apply Hpp. by vm_compute.
Defined.

Lemma findIndex_complete {A} (f : A -> bool) (l : list A) (x : A) :
  x ∈ l -> f x = true -> is_Some (findIndex f l).
Proof.
  intros Hx Hf. induction l as [|y l IH]; [by apply not_elem_of_nil in Hx|].
  cbn. destruct (f y) eqn:Hy; [by eexists|].
  apply elem_of_cons in Hx as [->|Hx]; [congruence|].
  destruct (IH Hx) as [i ->]. by eexists.
Qed.

(** What [played] leaves alone, and what it does to piles and seats. *)
Lemma played_frame (S : GameState) (player : Player) (cardIndex : nat)
    (card : Card) (g : Rng) :
  let S' := played S player cardIndex card g in
  deck S' = deck S /\ discardPile S' = discardPile S ++ [card]
  /\ previousState S' = previousState S /\ canUndo S' = canUndo S
  /\ length (players S') = length (players S)
  /\ let ci := Z.to_nat (currentPlayerIndex S) in
     let hand := delete cardIndex (p_hand player) in
     let removed := set_hand ci hand (players S) in
     players S' = removed
     \/ exists oi other,
          removed !! oi = Some other /\ p_id other <> p_id player
          /\ players S' = set_hand oi hand (set_hand ci (p_hand other) removed).
Proof.
  unfold played. cbn zeta. case_bool_decide as Hlen.
  { fields. rewrite set_hand_length. repeat split. by left. }
  match goal with
  | |- context [card_effect ?st ?ci ?pl ?c ?txt ?g] =>
      pose proof (card_effect_frame st ci pl c txt g) as Hframe;
      destruct (card_effect st ci pl c txt g) as [[st' txt'] k]
  end.
  cbn zeta in Hframe. fields.
  destruct Hframe as (Hdk & Hdp & _ & _ & Hprev & Hundo & Hn & Hps).
  rewrite set_hand_length in Hn.
  assert (Hadv : forall st, (if bool_decide (0 < k) then advanceTurn st k else st)
                            = set_currentPlayerIndex
                                (currentPlayerIndex
                                   (if bool_decide (0 < k) then advanceTurn st k else st)) st).
  { intros st. case_bool_decide; [done|]. by destruct st. }
  rewrite Hadv. fields. repeat split; try done.
  destruct Hps as [Hps | (HK & _ & oi & other & Hoi & Ho & Hps)]; [by left|].
  right. exists oi, other. repeat split; try done.
  apply findIndex_Some in Hoi as (x & Hx & Hne).
  rewrite Ho in Hx. injection Hx as <-.
  by apply bool_decide_eq_true in Hne.
Qed.

(** * Undo *)

Lemma undoLastMove_unavailable (S : GameState) :
  canUndo S = false \/ previousState S = None -> undoLastMove S = None.
Proof.
  unfold undoLastMove. intros [-> | ->]; [done|]. by destruct (canUndo S).
Qed.

(** C5 (undo round trip): saving a state with a current player, playing any
    card id and undoing gives back the hands, the deck, the discard pile,
    the current seat and the direction of the saved state, with undo
    switched off and no snapshot left; and [undoLastMove] answers [null]
    when undo is off or there is no snapshot. *)
Theorem undo_round_trip :
  (forall (S : GameState) (cardId : string) (g : Rng),
     is_Some (current_player S) ->
     exists S1 S2,
       playCard (saveStateForUndo S) cardId g = Ok S1
       /\ undoLastMove S1 = Some S2
       /\ players S2 = players S /\ deck S2 = deck S
       /\ discardPile S2 = discardPile S
       /\ currentPlayerIndex S2 = currentPlayerIndex S
       /\ direction S2 = direction S
       /\ canUndo S2 = false /\ previousState S2 = None)
  /\ (forall S' : GameState,
        canUndo S' = false \/ previousState S' = None -> undoLastMove S' = None).
Proof.
  split; [|apply undoLastMove_unavailable].
  intros S cardId g [player Hp].
  set (S0 := saveStateForUndo S).
  assert (Hprev : previousState S0 = Some (set_canUndo false (set_previousState None S))
                  /\ canUndo S0 = true).
  { unfold S0, saveStateForUndo. by rewrite !cloneState_id. }
  assert (Hret : exists S1, playCard S0 cardId g = Ok S1
                            /\ previousState S1 = previousState S0
                            /\ canUndo S1 = canUndo S0).
  { destruct (truthy (winnerId S0)) eqn:Hw.
    { exists S0. unfold playCard. by rewrite Hw. }
    assert (Hp0 : current_player S0 = Some player).
    { unfold S0, saveStateForUndo. by rewrite !cloneState_id. }
    destruct (findIndex (fun c => bool_decide (c_id c = cardId)) (p_hand player))
      as [cardIndex|] eqn:Hi.
    2:{ exists S0. unfold playCard, current_player in *.
        by rewrite Hw, cloneState_id, Hp0, Hi. }
    destruct (findIndex_Some _ _ _ Hi) as (card & Hc & _).
    exists (played S0 player cardIndex card g).
    split; [by apply playCard_found|].
    pose proof (played_frame S0 player cardIndex card g) as Hf.
    cbn zeta in Hf. tauto. }
  destruct Hret as (S1 & Hplay & Hp1 & Hu1).
  destruct Hprev as [Hprev Hundo].
  exists S1. eexists. split; [done|].
  unfold undoLastMove. rewrite Hu1, Hundo, Hp1, Hprev, cloneState_id.
  split; [reflexivity|]. by fields.
Qed.

Lemma undo_round_trip_witness :
  exists S1 S2,
    playCard (saveStateForUndo stack_scenario) "♥-2" [] = Ok S1
    /\ pendingPickup S1 = 4
    /\ undoLastMove S1 = Some S2
    /\ players S2 = players stack_scenario
    /\ discardPile S2 = discardPile stack_scenario
    /\ currentPlayerIndex S2 = 1
    /\ undoLastMove S2 = None.
Proof.
  destruct undo_round_trip as [Hround Hnone].
  destruct (Hround stack_scenario "♥-2" [] ltac:(by eexists))
    as (S1 & S2 & Hplay & Hundo & Hps & _ & Hdp & Hidx & _ & Hcan & _).
  exists S1, S2. repeat split; try done.
  - vm_compute in Hplay. injection Hplay as <-. reflexivity.
  - apply Hnone. by left.
Defined.

(** * Shuffling and sorting move cards, they neither add nor drop any *)

Lemma swap_at_perm {A} (i j : nat) (l : list A) : swap_at i j l ≡ₚ l.
Proof.
  unfold swap_at. destruct (l !! i) as [x|] eqn:Hi; [|done].
  destruct (l !! j) as [y|] eqn:Hj; [|done].
  by apply Permutation_insert_swap.
Qed.

Lemma shuffle_from_perm (i : nat) (d : list Card) (g : Rng) :
  (shuffle_from i d g).1 ≡ₚ d.
Proof.
  revert d g. induction i as [|i IH]; intros d g; [done|].
  cbn [shuffle_from]. destruct (random_below (S (S i)) g) as [j g'].
  rewrite IH. apply swap_at_perm.
Qed.

Lemma shuffleDeck_perm (d : list Card) (g : Rng) : (shuffleDeck d g).1 ≡ₚ d.
Proof. apply shuffle_from_perm. Qed.

Lemma shuffleDeck_length (d : list Card) (g : Rng) :
  length (shuffleDeck d g).1 = length d.
Proof. by rewrite shuffleDeck_perm. Qed.

Lemma sort_insert_perm {A} (cmp : A -> A -> Z) (x : A) (l : list A) :
  sort_insert cmp x l ≡ₚ x :: l.
Proof.
  induction l as [|y l IH]; cbn; [done|].
  case_bool_decide; [|done]. rewrite IH. apply Permutation_swap.
Qed.

Lemma stable_sort_perm {A} (cmp : A -> A -> Z) (l : list A) :
  stable_sort cmp l ≡ₚ l.
Proof.
  induction l as [|x l IH]; cbn; [done|].
  by rewrite sort_insert_perm, IH.
Qed.

Lemma sortHand_length (hand : list Card) : length (sortHand hand) = length hand.
Proof. unfold sortHand. by rewrite stable_sort_perm. Qed.

(** * drawCard *)

(** The drawing loop: how many cards it draws, where they come from and
    what is left of the piles. *)
Lemma draw_loop_spec (n : nat) :
  forall (dk dp hand : list Card) (k : nat) (g : Rng) dk' dp' hand' k',
    draw_loop n dk dp hand k g = (dk', dp', hand', k') ->
    k' = (k + Nat.min n (length dk + Nat.pred (length dp)))%nat
    /\ (exists drawn, hand' = hand ++ drawn /\ length drawn = (k' - k)%nat)
    /\ (length dk' + length dp' + length hand'
        = length dk + length dp + length hand)%nat
    /\ last dp' = last dp
    /\ ((n <= length dk)%nat \/ (length dp <= 1)%nat -> dp' = dp)
    /\ ((length dk < n)%nat -> (1 < length dp)%nat -> length dp' = 1%nat).
Proof.
  induction n as [|n IH]; intros dk dp hand k g dk' dp' hand' k' Hloop.
  { cbn in Hloop. injection Hloop as <- <- <- <-.
    repeat split; try lia; try done.
    exists []. split; [by rewrite app_nil_r|cbn; lia]. }
  cbn [draw_loop] in Hloop.
  case_bool_decide as Hdk.
  - (* the deck is empty *)
    apply nil_length_inv in Hdk as ->.
    case_bool_decide as Hdp.
    + (* recycle the discard pile *)
      destruct (pop_nonempty dp) as (newDeck & topCard & Hpop & ->).
      { intros ->. cbn in Hdp. lia. }
      rewrite Hpop in Hloop.
      pose proof (shuffleDeck_length newDeck g) as Hsh.
      destruct (shuffleDeck newDeck g) as [shuffled g']. cbn [fst] in Hsh.
      rewrite length_app in Hdp. cbn in Hdp.
      destruct (pop_nonempty shuffled) as (rest & newCard & Hpop' & ->).
      { intros ->. cbn in Hsh. lia. }
      rewrite Hpop' in Hloop.
      apply IH in Hloop as (Hk & (drawn & -> & Hdrawn) & Hlen & Hlast & Hsame & _).
      rewrite !length_app in *. cbn [length] in *.
      repeat split; try lia.
      * exists (newCard :: drawn). rewrite <- app_assoc. split; [done|cbn; lia].
      * rewrite Hlast. by rewrite last_snoc.
      * intros _ _. rewrite Hsame; [done|]. right. lia.
    + (* nothing to recycle: leave the loop *)
      injection Hloop as <- <- <- <-.
      repeat split; try lia; try done.
      * destruct dp as [|? [|? ?]]; cbn in *; lia.
      * exists []. split; [by rewrite app_nil_r|cbn; lia].
  - (* the deck has a card *)
    destruct (pop_nonempty dk) as (rest & newCard & Hpop & ->).
    { intros ->. done. }
    rewrite Hpop in Hloop.
    apply IH in Hloop as (Hk & (drawn & -> & Hdrawn) & Hlen & Hlast & Hsame & Hrec).
    rewrite !length_app in *. cbn [length] in *.
    repeat split; try lia; try done.
    + exists (newCard :: drawn). rewrite <- app_assoc. split; [done|cbn; lia].
    + intros Hle. apply Hsame. lia.
Qed.

Lemma hand_total_set_hand (ps : list Player) (i : nat) (p : Player) (h : list Card) :
  ps !! i = Some p ->
  (hand_total (set_hand i h ps) + length (p_hand p) = hand_total ps + length h)%nat.
Proof.
  unfold hand_total, set_hand. revert i.
  induction ps as [|q ps IH]; intros i Hi; [done|].
  destruct i as [|i]; cbn in *.
  - injection Hi as ->. lia.
  - specialize (IH i Hi). lia.
Qed.

(** C8 (drawing): with a current player, [drawCard] returns and never
    raises (a finished game is handed back as it is).  While the game is on
    it asks for [pendingPickup] cards under an
    attack and for one card otherwise, and supplies as many of them as the
    deck and the discard pile below its top card hold; the cards go to the
    end of the acting hand (which is then sorted for a human); the top of the
    discard pile stays, the pile is untouched when the deck suffices and is
    down to one card once it had to be recycled; the pending pickup is 0
    and the turn is one seat further whether or not the draw was complete. *)
Theorem drawCard_total (S : GameState) (g : Rng) (player : Player) :
  current_player S = Some player ->
  exists S',
    drawCard S g = Ok S'
    /\ (truthy (winnerId S) = true -> S' = S)
    /\ (truthy (winnerId S) = false ->
        let countToDraw :=
          if bool_decide (0 < pendingPickup S) then Z.to_nat (pendingPickup S) else 1%nat in
        let supply := (length (deck S) + Nat.pred (length (discardPile S)))%nat in
        let drawn := Nat.min countToDraw supply in
        pendingPickup S' = 0
        /\ currentPlayerIndex S' = next_index S
        /\ direction S' = direction S
        /\ (exists cards hand',
              length cards = drawn
              /\ hand' = (if p_isBot player then p_hand player ++ cards
                          else sortHand (p_hand player ++ cards))
              /\ players S' = set_hand (Z.to_nat (currentPlayerIndex S)) hand' (players S))
        /\ (length (deck S') + length (discardPile S') + drawn
            = length (deck S) + length (discardPile S))%nat
        /\ last (discardPile S') = last (discardPile S)
        /\ ((countToDraw <= length (deck S))%nat -> discardPile S' = discardPile S)
        /\ ((length (deck S) < countToDraw)%nat -> (1 < length (discardPile S))%nat ->
            length (discardPile S') = 1%nat)).
Proof.
  intros Hp. pose proof (current_player_length S player Hp) as Hn.
  unfold drawCard. destruct (truthy (winnerId S)) eqn:Hw.
  { exists S. split; [done|]. split; [done|]. done. }
  unfold current_player in Hp. rewrite cloneState_id, Hp.
  set (n := Z.to_nat (if bool_decide (0 < pendingPickup S) then pendingPickup S else 1)).
  destruct (draw_loop n (deck S) (discardPile S) (p_hand player) 0 g)
    as [[[dk' dp'] hand'] k'] eqn:Hloop.
  apply draw_loop_spec in Hloop
    as (Hk & (cards & -> & Hcards) & Hlen & Hlast & Hsame & Hrec).
  eexists. split; [reflexivity|]. split; [done|]. intros _.
  assert (Hcount : (if bool_decide (0 < pendingPickup S)
                    then Z.to_nat (pendingPickup S) else 1%nat) = n).
  { unfold n. by case_bool_decide. }
  clearbody n. cbn zeta. rewrite Hcount.
  rewrite advanceTurn_one by (fields; by rewrite set_hand_length).
  unfold advanceTurn, next_index. fields. rewrite set_hand_length.
  rewrite length_app in Hlen.
  repeat split; try done; try lia.
  - exists cards. eexists. split; [lia|]. split; [reflexivity|].
    by destruct (p_isBot player).
  - intros Hle. apply Hsame. by left.
Qed.

Lemma drawCard_total_witness :
  exists S', drawCard exhaustion_scenario [] = Ok S'
             /\ pendingPickup S' = 0 /\ currentPlayerIndex S' = 0
             /\ length (discardPile S') = 1%nat
             /\ (length (deck S') + length (discardPile S') + 3
                 = length (deck exhaustion_scenario)
                   + length (discardPile exhaustion_scenario))%nat.
Proof.
  destruct (drawCard_total exhaustion_scenario []
              (mkPlayer "bot-1" "Bot 1" "🐯" true [mkCard "♥-3" Hearts Three]) eq_refl)
    as (S' & Hdraw & _ & Hrest).
  destruct (Hrest eq_refl) as (Hpp & Hidx & _ & _ & Hlen & _ & _ & Hone).
  exists S'. repeat split; try done.
  apply Hone; vm_compute; lia.
Defined.

(** * What each transition maintains *)

Lemma hand_total_swap (ps : list Player) (ci ti : nat) (pc pt : Player) :
  ps !! ci = Some pc -> ps !! ti = Some pt ->
  hand_total (set_hand ti (p_hand pc) (set_hand ci (p_hand pt) ps)) = hand_total ps.
Proof.
  intros Hc Ht.
  pose proof (hand_total_set_hand ps ci pc (p_hand pt) Hc) as H1.
  destruct (decide (ci = ti)) as [<-|Hne].
  - assert (pc = pt) as <- by congruence.
    pose proof (set_hand_lookup ci (p_hand pc) ps pc Hc) as Hc'.
    pose proof (hand_total_set_hand _ ci _ (p_hand pc) Hc') as H2.
    cbn in H2. lia.
  - assert (Ht' : set_hand ci (p_hand pt) ps !! ti = Some pt)
      by (by rewrite set_hand_lookup_ne).
    pose proof (hand_total_set_hand _ ti pt (p_hand pc) Ht') as H2. lia.
Qed.

Lemma current_player_lookup (S : GameState) (player : Player) :
  current_player S = Some player ->
  players S !! Z.to_nat (currentPlayerIndex S) = Some player
  /\ 0 <= currentPlayerIndex S < Z.of_nat (length (players S)).
Proof.
  intros Hp. split; [by apply at_index_Some in Hp as [_ ?]|by apply at_index_bounds in Hp].
Qed.

Lemma played_total_cards (S : GameState) (player : Player) (cardIndex : nat)
    (card : Card) (g : Rng) :
  current_player S = Some player ->
  p_hand player !! cardIndex = Some card ->
  total_cards (played S player cardIndex card g) = total_cards S.
Proof.
  intros Hp Hc. apply current_player_lookup in Hp as [Hp _].
  pose proof (played_frame S player cardIndex card g) as Hf. cbn zeta in Hf.
  destruct Hf as (Hdk & Hdp & _ & _ & _ & Hps).
  unfold total_cards. rewrite Hdk, Hdp, length_app. cbn [length].
  pose proof (hand_total_set_hand _ _ _ (delete cardIndex (p_hand player)) Hp) as Hrem.
  assert (Hdel : (length (delete cardIndex (p_hand player)) + 1 = length (p_hand player))%nat).
  { pose proof (lookup_lt_Some _ _ _ Hc). rewrite length_delete by (by eexists). lia. }
  destruct Hps as [-> | (oi & other & Ho & _ & ->)]; [lia|].
  pose proof (set_hand_lookup _ (delete cardIndex (p_hand player)) _ _ Hp) as Hci.
  pose proof (hand_total_swap _ _ oi _ other Hci Ho) as Hswap.
  cbn [p_hand] in Hswap. rewrite Hswap. lia.
Qed.

Lemma played_index (S : GameState) (player : Player) (cardIndex : nat)
    (card : Card) (g : Rng) :
  current_player S = Some player ->
  0 <= currentPlayerIndex (played S player cardIndex card g)
    < Z.of_nat (length (players (played S player cardIndex card g))).
Proof.
  intros Hp. apply current_player_lookup in Hp as [_ Hidx].
  pose proof (played_frame S player cardIndex card g) as Hf. cbn zeta in Hf.
  destruct Hf as (_ & _ & _ & _ & -> & _).
  unfold played. cbn zeta. case_bool_decide; [by fields|].
  match goal with
  | |- context [card_effect ?st ?ci ?pl ?c ?txt ?g] =>
      pose proof (card_effect_frame st ci pl c txt g) as Hframe;
      destruct (card_effect st ci pl c txt g) as [[st' txt'] k]
  end.
  cbn zeta in Hframe. fields.
  destruct Hframe as (_ & _ & _ & Hi & _ & _ & Hn & _).
  rewrite set_hand_length in Hn.
  case_bool_decide.
  - rewrite <- Hn.
    apply (advanceTurn_valid (set_lastAction txt' st')). fields. lia.
  - fields. lia.
Qed.

Lemma played_flags (S : GameState) (player : Player) (cardIndex : nat)
    (card : Card) (g : Rng) :
  let S' := played S player cardIndex card g in
  (pendingSuitChoice S' = pendingSuitChoice S /\ pendingSwap S' = pendingSwap S)
  \/ (pendingSuitChoice S' = true /\ pendingSwap S' = pendingSwap S)
  \/ (pendingSuitChoice S' = pendingSuitChoice S /\ pendingSwap S' = true).
Proof.
  unfold played. cbn zeta. case_bool_decide; [left; by fields|].
  match goal with
  | |- context [card_effect ?st ?ci ?pl ?c ?txt ?g] =>
      pose proof (card_effect_flags st ci pl c txt g) as Hflags;
      destruct (card_effect st ci pl c txt g) as [[st' txt'] k]
  end.
  cbn zeta in Hflags. fields.
  case_bool_decide; unfold advanceTurn; fields; exact Hflags.
Qed.

(** ** What a play does, seat by seat and field by field *)

Lemma findIndex_first {A} (f : A -> bool) (l : list A) (i : nat) (x : A) :
  l !! i = Some x -> f x = true ->
  (forall j y, (j < i)%nat -> l !! j = Some y -> f y = false) ->
  findIndex f l = Some i.
Proof.
  revert i. induction l as [|z l IH]; intros i Hx Hf Hbefore; [done|].
  destruct i as [|i]; cbn in *.
  - injection Hx as ->. by rewrite Hf.
  - rewrite (Hbefore 0%nat z) by (done || lia).
    rewrite (IH i); [done|done|done|].
    intros j y Hj Hy. apply (Hbefore (S j) y); [lia|done].
Qed.

Lemma findIndex_before {A} (f : A -> bool) (l : list A) (i : nat) :
  findIndex f l = Some i ->
  forall j y, (j < i)%nat -> l !! j = Some y -> f y = false.
Proof.
  revert i. induction l as [|z l IH]; intros i; cbn; [done|].
  destruct (f z) eqn:Hz.
  - intros [= <-] j y Hj. lia.
  - destruct (findIndex f l) as [k|]; cbn; [|done].
    intros [= <-] [|j] y Hj Hy; cbn in Hy.
    + by injection Hy as <-.
    + apply (IH k eq_refl j y); [lia|done].
Qed.

Lemma findIndex_None {A} (f : A -> bool) (l : list A) :
  (forall x, x ∈ l -> f x = false) -> findIndex f l = None.
Proof.
  induction l as [|y l IH]; intros Hall; cbn; [done|].
  rewrite (Hall y) by left. rewrite IH; [done|].
  intros x Hx. apply Hall. by right.
Qed.

Lemma random_below_lt (n : nat) (g : Rng) :
  (0 < n)%nat -> ((random_below n g).1 < n)%nat.
Proof.
  intros Hn. unfold random_below. destruct g as [|r g]; cbn; [done|].
  rewrite bool_decide_eq_false_2 by lia. apply Nat.mod_upper_bound. lia.
Qed.

Lemma elem_of_set_hand (i : nat) (h : list Card) (ps : list Player) (p : Player) :
  p ∈ set_hand i h ps ->
  p ∈ ps \/ exists q, ps !! i = Some q /\ p_id p = p_id q /\ p_hand p = h.
Proof.
  intros [j Hj]%list_elem_of_lookup_1.
  destruct (decide (i = j)) as [<-|Hne].
  - unfold set_hand in Hj. rewrite list_lookup_alter_eq in Hj.
    destruct (ps !! i) as [q|] eqn:Hq; [|done].
    injection Hj as <-. right. by exists q.
  - rewrite set_hand_lookup_ne in Hj by done.
    left. by apply list_elem_of_lookup_2 in Hj.
Qed.

(** Writing a hand leaves every seat with its id, name, avatar and kind. *)
Lemma set_hand_seat (i : nat) (h : list Card) (ps : list Player) (j : nat) (p : Player) :
  ps !! j = Some p ->
  exists p', set_hand i h ps !! j = Some p'
             /\ p_id p' = p_id p /\ p_name p' = p_name p
             /\ p_avatar p' = p_avatar p /\ p_isBot p' = p_isBot p.
Proof.
  intros Hp. destruct (decide (i = j)) as [->|Hne].
  - rewrite (set_hand_lookup j h ps p Hp). by eexists.
  - rewrite set_hand_lookup_ne by done. by exists p.
Qed.

(** The players after the dispatch: the hands change only in the automatic
    exchange of a King in a game of at most two players. *)
Lemma card_effect_players (state : GameState) (ci : nat) (player : Player)
    (card : Card) (txt : string) (g : Rng) :
  players (card_effect state ci player card txt g).1.1
  = if bool_decide (c_rank card = King)
       && negb (bool_decide (2 < length (players state))%nat)
    then match findIndex (fun p => bool_decide (p_id p <> p_id player))
                 (players state) with
         | Some oi =>
             match players state !! oi with
             | Some otherPlayer =>
                 set_hand oi (p_hand player)
                   (set_hand ci (p_hand otherPlayer) (players state))
             | None => players state
             end
         | None => players state
         end
    else players state.
Proof.
  unfold card_effect, isTwo, isBlackJack. cbv zeta.
  destruct card as [id suit rank]. cbn [c_rank c_suit].
  destruct rank; decide_consts;
    repeat first
      [ progress cbn [andb orb negb]
      | case_bool_decide
      | match goal with
        | |- context [match ?x with _ => _ end] => destruct x
        end ];
    fields; done.
Qed.

Lemma played_players (S : GameState) (player : Player) (cardIndex : nat)
    (card : Card) (g : Rng) :
  let ci := Z.to_nat (currentPlayerIndex S) in
  let rest := delete cardIndex (p_hand player) in
  let removed := set_hand ci rest (players S) in
  players (played S player cardIndex card g)
  = if bool_decide (rest <> []) && bool_decide (c_rank card = King)
       && negb (bool_decide (2 < length (players S))%nat)
    then match findIndex (fun p => bool_decide (p_id p <> p_id player)) removed with
         | Some oi =>
             match removed !! oi with
             | Some other => set_hand oi rest (set_hand ci (p_hand other) removed)
             | None => removed
             end
         | None => removed
         end
    else removed.
Proof.
  cbn zeta. destruct (decide (delete cardIndex (p_hand player) = [])) as [Hnil|Hne].
  - rewrite (bool_decide_eq_false_2 (_ <> [])) by (by intros Hx). cbn [andb].
    unfold played. cbn zeta.
    rewrite bool_decide_eq_true_2 by (by rewrite Hnil). by fields.
  - rewrite (bool_decide_eq_true_2 (_ <> [])) by done. cbn [andb].
    rewrite played_continue by done. cbn zeta.
    match goal with
    | |- context [card_effect ?st ?ci ?pl ?c ?txt ?g] =>
        pose proof (card_effect_players st ci pl c txt g) as Hps;
        destruct (card_effect st ci pl c txt g) as [[st' txt'] k]
    end.
    fields. rewrite set_hand_length in Hps. cbn [p_id p_hand] in Hps.
    rewrite <- Hps. destruct (bool_decide (0 < k)); [|done].
    unfold advanceTurn. by fields.
Qed.

(** The hands after a play, seat by seat. *)
Lemma played_hands (S : GameState) (player : Player) (cardIndex : nat)
    (card : Card) (g : Rng) :
  current_player S = Some player ->
  let S' := played S player cardIndex card g in
  let ci := Z.to_nat (currentPlayerIndex S) in
  let n := length (players S) in
  let rest := delete cardIndex (p_hand player) in
  (forall j p, players S !! j = Some p ->
     exists p', players S' !! j = Some p'
                /\ p_id p' = p_id p /\ p_name p' = p_name p
                /\ p_avatar p' = p_avatar p /\ p_isBot p' = p_isBot p)
  /\ (forall oi other,
        c_rank card = King -> (n <= 2)%nat -> rest <> [] ->
        players S !! oi = Some other -> p_id other <> p_id player ->
        (forall j q, (j < oi)%nat -> players S !! j = Some q -> p_id q = p_id player) ->
        p_hand <$> players S' !! ci = Some (p_hand other)
        /\ p_hand <$> players S' !! oi = Some rest
        /\ forall j, j <> ci -> j <> oi -> players S' !! j = players S !! j)
  /\ (c_rank card <> King \/ (2 < n)%nat \/ rest = []
      \/ (forall q, q ∈ players S -> p_id q = p_id player) ->
      p_hand <$> players S' !! ci = Some rest
      /\ forall j, j <> ci -> players S' !! j = players S !! j).
Proof.
  intros Hp. cbn zeta.
  apply current_player_lookup in Hp as [Hci _].
  pose proof (played_players S player cardIndex card g) as Hps. cbn zeta in Hps.
  set (ci := Z.to_nat (currentPlayerIndex S)) in *.
  set (rest := delete cardIndex (p_hand player)) in *.
  set (removed := set_hand ci rest (players S)) in *.
  pose proof (set_hand_lookup ci rest _ _ Hci) as Hci'. fold removed in Hci'.
  assert (Hplain : players (played S player cardIndex card g) = removed ->
            p_hand <$> players (played S player cardIndex card g) !! ci = Some rest
            /\ forall j, j <> ci ->
                 players (played S player cardIndex card g) !! j = players S !! j).
  { intros ->. rewrite Hci'. split; [done|].
    intros j Hj. unfold removed. by rewrite set_hand_lookup_ne. }
  split_and!.
  - intros j p Hj. rewrite Hps.
    destruct (set_hand_seat ci rest (players S) j p Hj)
      as (p1 & Hp1 & Hid1 & Hname1 & Hav1 & Hbot1). fold removed in Hp1.
    assert (Hsame : exists p', removed !! j = Some p'
              /\ p_id p' = p_id p /\ p_name p' = p_name p
              /\ p_avatar p' = p_avatar p /\ p_isBot p' = p_isBot p)
      by (exists p1; by rewrite Hid1, Hname1, Hav1, Hbot1).
    destruct (_ && _); [|done].
    destruct (findIndex _ removed) as [oi|]; [|done].
    destruct (removed !! oi) as [other|]; [|done].
    destruct (set_hand_seat ci (p_hand other) removed j p1 Hp1)
      as (p2 & Hp2 & Hid2 & Hname2 & Hav2 & Hbot2).
    destruct (set_hand_seat oi rest _ j p2 Hp2)
      as (p3 & Hp3 & Hid3 & Hname3 & Hav3 & Hbot3).
    exists p3.
    by rewrite Hp3, Hid3, Hname3, Hav3, Hbot3, Hid2, Hname2, Hav2, Hbot2,
         Hid1, Hname1, Hav1, Hbot1.
  - intros oi other HK Hn Hne Ho Hid Hfirst.
    assert (Hneq : oi <> ci) by (intros ->; congruence).
    assert (Ho' : removed !! oi = Some other)
      by (unfold removed; by rewrite set_hand_lookup_ne).
    rewrite (bool_decide_eq_true_2 (_ <> [])) in Hps by done.
    rewrite (bool_decide_eq_true_2 _ HK) in Hps.
    rewrite (bool_decide_eq_false_2 (2 < _)%nat) in Hps by lia.
    cbn [andb negb] in Hps.
    rewrite (findIndex_first _ removed oi other Ho') in Hps.
    2:{ by apply bool_decide_eq_true. }
    2:{ intros j y Hj Hy. apply bool_decide_eq_false. intros Hdiff. apply Hdiff.
        destruct (decide (j = ci)) as [->|Hjc].
        - rewrite Hci' in Hy. by injection Hy as <-.
        - unfold removed in Hy. rewrite set_hand_lookup_ne in Hy by done.
          by apply (Hfirst j y). }
    rewrite Ho' in Hps. rewrite Hps. split_and!.
    + rewrite set_hand_lookup_ne by done.
      by rewrite (set_hand_lookup ci (p_hand other) removed _ Hci').
    + assert (Ho2 : set_hand ci (p_hand other) removed !! oi = Some other)
        by (by rewrite set_hand_lookup_ne).
      by rewrite (set_hand_lookup oi rest _ _ Ho2).
    + intros j Hjc Hjo. unfold removed. by rewrite !set_hand_lookup_ne.
  - intros Hcase. apply Hplain. rewrite Hps.
    destruct (bool_decide (rest <> [])) eqn:Hrest; [|done].
    destruct (bool_decide (c_rank card = King)) eqn:HK; [|done].
    destruct (bool_decide (2 < length (players S))%nat) eqn:Hn; [done|].
    cbn [andb negb].
    apply bool_decide_eq_true in Hrest, HK. apply bool_decide_eq_false in Hn.
    destruct Hcase as [?|[?|[?|Hall]]]; try done.
    rewrite findIndex_None; [done|].
    intros q Hq. apply bool_decide_eq_false. intros Hdiff. apply Hdiff.
    apply elem_of_set_hand in Hq as [Hq | (q0 & Hq0 & -> & _)].
    + by apply Hall.
    + congruence.
Qed.

Lemma card_effect_peek (state : GameState) (ci : nat) (player : Player)
    (card : Card) (txt : string) (g : Rng) :
  c_rank card <> Seven ->
  let st := (card_effect state ci player card txt g).1.1 in
  peekingCard st = peekingCard state /\ peekingPlayerId st = peekingPlayerId state.
Proof.
  intros Hrank. cbn zeta. unfold card_effect, isTwo, isBlackJack. cbv zeta.
  destruct card as [id suit rank]. cbn [c_rank c_suit] in *.
  destruct rank; try done; decide_consts;
    repeat first
      [ progress cbn [andb orb negb]
      | case_bool_decide
      | match goal with
        | |- context [match ?x with _ => _ end] => destruct x
        end ];
    fields; done.
Qed.

(** The peek after a play: only a 7 that leaves cards in the hand looks at
    a card, one of a player with another id who holds any. *)
Lemma played_peek (S : GameState) (player : Player) (cardIndex : nat)
    (card : Card) (g : Rng) :
  current_player S = Some player ->
  let S' := played S player cardIndex card g in
  let rest := delete cardIndex (p_hand player) in
  (c_rank card <> Seven \/ rest = [] ->
   peekingCard S' = peekingCard S /\ peekingPlayerId S' = peekingPlayerId S)
  /\ (c_rank card = Seven -> rest <> [] ->
      (peekingCard S' = peekingCard S /\ peekingPlayerId S' = peekingPlayerId S
       /\ forall p, p ∈ players S -> p_id p <> p_id player -> p_hand p = [])
      \/ exists opponent shown,
           opponent ∈ players S /\ p_id opponent <> p_id player
           /\ shown ∈ p_hand opponent
           /\ peekingCard S' = Some shown
           /\ peekingPlayerId S' = Some (p_id opponent)).
Proof.
  intros Hp. cbn zeta.
  pose proof (current_player_lookup S player Hp) as [Hci _].
  assert (Hadv : forall st k,
            let st' := if bool_decide (0 < k) then advanceTurn st k else st in
            peekingCard st' = peekingCard st /\ peekingPlayerId st' = peekingPlayerId st).
  { intros st k. cbn zeta. destruct (bool_decide (0 < k)); [|done].
    unfold advanceTurn. by fields. }
  split.
  - intros Hcase.
    destruct (decide (delete cardIndex (p_hand player) = [])) as [Hnil|Hne].
    { unfold played. cbn zeta.
      rewrite bool_decide_eq_true_2 by (by rewrite Hnil). by fields. }
    destruct Hcase as [Hrank|?]; [|done].
    rewrite played_continue by done. cbn zeta.
    match goal with
    | |- context [card_effect ?st ?ci ?pl ?c ?txt ?g] =>
        pose proof (card_effect_peek st ci pl c txt g Hrank) as Hpeek;
        destruct (card_effect st ci pl c txt g) as [[st' txt'] k]
    end.
    cbn zeta in Hpeek. fields.
    destruct (Hadv (set_lastAction txt' st') k) as [-> ->]. by fields.
  - intros Hrank Hne.
    rewrite played_continue by done. cbn zeta.
    unfold card_effect, isTwo, isBlackJack. rewrite Hrank. decide_consts.
    fields.
    set (ci := Z.to_nat (currentPlayerIndex S)) in *.
    set (hand := delete cardIndex (p_hand player)) in *.
    set (opponents := filter _ (set_hand ci hand (players S))).
    assert (Hopp : forall p, p ∈ opponents ->
                             p ∈ players S /\ p_id p <> p_id player /\ p_hand p <> []).
    { intros p [[Hid Hpos] Hin]%list_elem_of_filter. cbn in Hid.
      apply elem_of_set_hand in Hin as [Hin | (q & Hq & Hidq & _)].
      - split; [done|]. split; [done|].
        intros Hnil. rewrite Hnil in Hpos. cbn in Hpos. lia.
      - exfalso. apply Hid. rewrite Hidq. congruence. }
    destruct (decide (0 < length opponents)%nat) as [Hsome|Hnone].
    + rewrite (bool_decide_eq_true_2 _ Hsome).
      pose proof (random_below_lt (length opponents) g Hsome) as Hk.
      destruct (random_below (length opponents) g) as [k g1]. cbn [fst] in Hk.
      destruct (lookup_lt_is_Some_2 opponents k Hk) as [opp Hoppk].
      rewrite Hoppk.
      destruct (Hopp opp) as (Hin & Hid & Hcards);
        [by apply list_elem_of_lookup_2 in Hoppk|].
      assert (Hpos : (0 < length (p_hand opp))%nat)
        by (destruct (p_hand opp); [done|cbn; lia]).
      pose proof (random_below_lt (length (p_hand opp)) g1 Hpos) as Hrc.
      destruct (random_below (length (p_hand opp)) g1) as [rc g2]. cbn [fst] in Hrc.
      destruct (lookup_lt_is_Some_2 (p_hand opp) rc Hrc) as [shown Hshown].
      rewrite bool_decide_eq_true_2 by lia.
      unfold advanceTurn. fields.
      right. exists opp, shown.
      split_and!; try done. by apply list_elem_of_lookup_2 in Hshown.
    + rewrite (bool_decide_eq_false_2 _ Hnone).
      rewrite bool_decide_eq_true_2 by lia.
      unfold advanceTurn. fields.
      left. split_and!; try done.
      intros p Hin Hid. destruct (p_hand p) as [|c0 l] eqn:Hhand; [done|].
      exfalso. apply Hnone.
      assert (Hpin : p ∈ opponents).
      { apply list_elem_of_filter. split.
        - cbn. split; [done|]. rewrite Hhand. cbn. lia.
        - apply list_elem_of_lookup_1 in Hin as [j Hj].
          apply (list_elem_of_lookup_2 _ j). rewrite set_hand_lookup_ne; [done|].
          intros <-. congruence. }
      destruct opponents; [by apply not_elem_of_nil in Hpin|cbn; lia].
Qed.

(** C9 (no legality check): whenever the game is not over and the acting
    hand holds a card with the given id, [playCard] takes the first such
    card out of the hand, pushes it onto the discard pile and applies its
    effect.  Nothing in the premises speaks of [isValidMove] or of the
    pending flags: the play goes through whatever they are.  The outcome is
    given seat by seat and field by field: the acting hand loses the card
    and the other seats keep theirs (a King in a game of at most two players
    then exchanges the two hands); a 2 adds 2 and a Jack of Spades or Clubs
    adds 5 to the pending pickup; a Queen raises the suit choice and a King
    with more than two players the swap choice; an Ace turns the direction
    unless there are two players; the turn stays, skips or passes as the
    card says; a 7 peeks at a card of another player; and a card that
    empties the hand wins instead. *)
Theorem playCard_no_legality_check (S : GameState) (cardId : string) (g : Rng)
    (player : Player) (held : Card) :
  truthy (winnerId S) = false ->
  current_player S = Some player ->
  held ∈ p_hand player -> c_id held = cardId ->
  exists cardIndex card S',
    p_hand player !! cardIndex = Some card /\ c_id card = cardId
    /\ (forall j c, (j < cardIndex)%nat -> p_hand player !! j = Some c -> c_id c <> cardId)
    /\ playCard S cardId g = Ok S'
    /\ discardPile S' = discardPile S ++ [card]
    /\ deck S' = deck S
    /\ let ci := Z.to_nat (currentPlayerIndex S) in
       let n := length (players S) in
       let rest := delete cardIndex (p_hand player) in
       length (players S') = n
       /\ (forall j p, players S !! j = Some p ->
             exists p', players S' !! j = Some p'
                        /\ p_id p' = p_id p /\ p_name p' = p_name p
                        /\ p_avatar p' = p_avatar p /\ p_isBot p' = p_isBot p)
       /\ (forall oi other,
             c_rank card = King -> (n <= 2)%nat -> rest <> [] ->
             players S !! oi = Some other -> p_id other <> p_id player ->
             (forall j q, (j < oi)%nat -> players S !! j = Some q ->
                          p_id q = p_id player) ->
             p_hand <$> players S' !! ci = Some (p_hand other)
             /\ p_hand <$> players S' !! oi = Some rest
             /\ forall j, j <> ci -> j <> oi -> players S' !! j = players S !! j)
       /\ (c_rank card <> King \/ (2 < n)%nat \/ rest = []
           \/ (forall q, q ∈ players S -> p_id q = p_id player) ->
           p_hand <$> players S' !! ci = Some rest
           /\ forall j, j <> ci -> players S' !! j = players S !! j)
       /\ (rest = [] ->
           winnerId S' = Some (p_id player)
           /\ pendingPickup S' = pendingPickup S
           /\ pendingSuitChoice S' = pendingSuitChoice S
           /\ pendingSwap S' = pendingSwap S
           /\ direction S' = direction S
           /\ currentPlayerIndex S' = currentPlayerIndex S)
       /\ (rest <> [] ->
           winnerId S' = winnerId S
           /\ pendingPickup S'
              = (if isTwo card then js_add (pendingPickup S) 2
                 else if isBlackJack card then js_add (pendingPickup S) 5
                 else pendingPickup S)
           /\ pendingSuitChoice S'
              = pendingSuitChoice S || bool_decide (c_rank card = Queen)
           /\ pendingSwap S'
              = pendingSwap S
                || (bool_decide (c_rank card = King) && bool_decide (2 < n)%nat)
           /\ direction S'
              = (if bool_decide (c_rank card = Ace) && negb (bool_decide (n = 2%nat))
                 then - direction S else direction S)
           /\ currentPlayerIndex S'
              = match c_rank card with
                | Queen => currentPlayerIndex S
                | King => if bool_decide (2 < n)%nat then currentPlayerIndex S
                          else next_index S
                | Eight => if bool_decide (n = 2%nat) then currentPlayerIndex S
                           else (currentPlayerIndex S + 2 * direction S)
                                  `mod` Z.of_nat n
                | Ace => if bool_decide (n = 2%nat) then currentPlayerIndex S
                         else (currentPlayerIndex S - direction S) `mod` Z.of_nat n
                | _ => next_index S
                end)
       /\ (c_rank card <> Seven \/ rest = [] ->
           peekingCard S' = peekingCard S /\ peekingPlayerId S' = peekingPlayerId S)
       /\ (c_rank card = Seven -> rest <> [] ->
           (peekingCard S' = peekingCard S /\ peekingPlayerId S' = peekingPlayerId S
            /\ forall p, p ∈ players S -> p_id p <> p_id player -> p_hand p = [])
           \/ exists opponent shown,
                opponent ∈ players S /\ p_id opponent <> p_id player
                /\ shown ∈ p_hand opponent
                /\ peekingCard S' = Some shown
                /\ peekingPlayerId S' = Some (p_id opponent)).
Proof.
  intros Hw Hp Hheld Hheld_id.
  destruct (findIndex_complete (fun c => bool_decide (c_id c = cardId))
              (p_hand player) held Hheld) as [cardIndex Hi].
  { by apply bool_decide_eq_true. }
  destruct (findIndex_Some _ _ _ Hi) as (card & Hc & Hid).
  apply bool_decide_eq_true in Hid.
  pose proof (findIndex_before _ _ _ Hi) as Hfirst.
  exists cardIndex, card, (played S player cardIndex card g).
  split; [exact Hc|]. split; [exact Hid|].
  split.
  { intros j c Hj Hjc. specialize (Hfirst j c Hj Hjc).
    by apply bool_decide_eq_false in Hfirst. }
  split; [by apply playCard_found|].
  pose proof (played_frame S player cardIndex card g) as Hframe.
  cbn zeta in Hframe. destruct Hframe as (Hdk & Hdp & _ & _ & Hlen & _).
  split; [exact Hdp|]. split; [exact Hdk|]. cbn zeta.
  split; [exact Hlen|].
  destruct (played_hands S player cardIndex card g Hp) as (Hseat & Hswap & Hplain).
  split; [exact Hseat|]. split; [exact Hswap|]. split; [exact Hplain|].
  destruct (played_peek S player cardIndex card g Hp) as [Hnopeek Hpeek].
  split; [|split; [|split; [exact Hnopeek|exact Hpeek]]].
  - intros Hnil. unfold played. cbn zeta.
    rewrite bool_decide_eq_true_2 by (by rewrite Hnil). by fields.
  - intros Hne. exact (played_effect S player cardIndex card g Hp Hne).
Qed.

Lemma playCard_no_legality_check_witness :
  isValidMove (mkCard "♠-J" Spades Jack) (mkCard "♠-2" Spades Two)
    (pendingPickup stack_scenario) = false
  /\ pendingSuitChoice stack_scenario = true
  /\ exists S', playCard stack_scenario "♠-J" [] = Ok S'
                /\ discardPile S' = [mkCard "♠-2" Spades Two; mkCard "♠-J" Spades Jack]
                /\ p_hand <$> players S' !! 1%nat
                   = Some [mkCard "♥-2" Hearts Two; mkCard "♥-9" Hearts Nine]
                /\ pendingPickup S' = 7
                /\ currentPlayerIndex S' = 2.
Proof.
  split; [reflexivity|]. split; [reflexivity|].
  destruct (playCard_no_legality_check stack_scenario "♠-J" []
              (mkPlayer "bot-1" "Bot 1" "🐯" true
                 [mkCard "♥-2" Hearts Two; mkCard "♠-J" Spades Jack;
                  mkCard "♥-9" Hearts Nine])
              (mkCard "♠-J" Spades Jack) eq_refl eq_refl
              ltac:(cbn [p_hand]; repeat constructor) eq_refl)
    as (cardIndex & card & S' & Hc & Hid & _ & Hplay & Hdp & _ & _ & _ & _
        & Hplain & _ & Heffect & _).
  assert (Hfound : cardIndex = 1%nat /\ card = mkCard "♠-J" Spades Jack).
  { destruct cardIndex as [|[|[|i]]]; cbn in Hc; try discriminate Hc;
      injection Hc as <-; cbn in Hid; try discriminate Hid. by split. }
  destruct Hfound as [-> ->].
  exists S'. split; [exact Hplay|]. split; [exact Hdp|].
  destruct Hplain as [Hhand _]; [left; discriminate|].
  split; [exact Hhand|].
  destruct Heffect as (_ & Hpp & _ & _ & _ & Hidx); [discriminate|].
  split; [rewrite Hpp; reflexivity|rewrite Hidx; reflexivity].
Defined.

(** The ways in which [drawCard] returns. *)
Lemma drawCard_Ok (S : GameState) (g : Rng) (S' : GameState) :
  drawCard S g = Ok S' ->
  S' = S
  \/ exists player dk dp hand txt,
       current_player S = Some player
       /\ (length dk + length dp + length hand
           = length (deck S) + length (discardPile S) + length (p_hand player))%nat
       /\ S' = advanceTurn
                 (set_pendingPickup 0
                    (set_lastAction txt
                       (set_players
                          (set_hand (Z.to_nat (currentPlayerIndex S)) hand (players S))
                          (set_discardPile dp (set_deck dk S))))) 1.
Proof.
  unfold drawCard. destruct (truthy (winnerId S)); [left; congruence|].
  rewrite cloneState_id. fold (current_player S).
  destruct (current_player S) as [player|] eqn:Hp; [|done].
  destruct (draw_loop _ _ _ _ _ _) as [[[dk dp] hand] k] eqn:Hloop.
  apply draw_loop_spec in Hloop as (_ & _ & Hlen & _).
  intros [= <-]. right.
  exists player, dk, dp. eexists. eexists. split; [done|].
  split; [|reflexivity].
  destruct (p_isBot player); cbn [negb]; rewrite ?sortHand_length; lia.
Qed.

(** The ways in which [swapWith] returns. *)
Lemma swapWith_Ok (S : GameState) (targetPlayerId : string) (S' : GameState) :
  swapWith S targetPlayerId = Ok S' ->
  S' = S
  \/ exists currentPlayer targetPlayer ti txt,
       current_player S = Some currentPlayer
       /\ players S !! ti = Some targetPlayer
       /\ S' = advanceTurn
                 (set_lastAction txt
                    (set_pendingSwap false
                       (set_players
                          (set_hand ti (p_hand currentPlayer)
                             (set_hand (Z.to_nat (currentPlayerIndex S))
                                (p_hand targetPlayer) (players S))) S))) 1.
Proof.
  unfold swapWith. destruct (pendingSwap S); cbn [negb]; [|left; congruence].
  rewrite cloneState_id.
  destruct (findIndex _ (players S)) as [ti|]; [|left; congruence].
  fold (current_player S).
  destruct (current_player S) as [pc|]; [|done].
  destruct (players S !! ti) as [pt|] eqn:Ht; [|done].
  intros [= <-]. right. exists pc, pt, ti. eexists. done.
Qed.

(** A bot turn is a call of [playCard] or of [drawCard] on the same state. *)
Lemma performBotTurn_Ok (S : GameState) (g : Rng) (S' : GameState) :
  performBotTurn S g = Ok S' ->
  (exists cardId g', playCard S cardId g' = Ok S')
  \/ (exists g', drawCard S g' = Ok S').
Proof.
  unfold performBotTurn. destruct (truthy (winnerId S)) eqn:Hw.
  { intros [= <-]. right. exists []. unfold drawCard. by rewrite Hw. }
  destruct (getBotDecision S g) as [[[|[|a cardId]] g']|]; try done; eauto.
Qed.

Lemma botChooseSuit_Ok (S S' : GameState) :
  botChooseSuit S = Ok S' -> exists suit, S' = chooseSuit S suit.
Proof.
  unfold botChooseSuit. destruct (at_index _ _) as [bot|]; [|done].
  intros [= <-]. eauto.
Qed.

Lemma botChooseSwap_Ok (S S' : GameState) :
  botChooseSwap S = Ok S' -> exists targetPlayerId, swapWith S targetPlayerId = Ok S'.
Proof.
  unfold botChooseSwap. destruct (at_index _ _) as [bot|]; [|done].
  destruct (filter _ _) as [|first others]; [done|]. eauto.
Qed.

(** ** A new game *)

Lemma createDeck_length : length createDeck = 52%nat.
Proof. reflexivity. Qed.

Lemma new_player_hand_length m names av i dealt :
  length (p_hand (new_player m names av i dealt)) = length dealt.
Proof.
  unfold new_player. cbn [p_hand].
  destruct (_ || _); [apply sortHand_length|done].
Qed.

Lemma hand_total_snoc (ps : list Player) (p : Player) :
  hand_total (ps ++ [p]) = (hand_total ps + length (p_hand p))%nat.
Proof. unfold hand_total. rewrite sum_list_with_app. cbn. lia. Qed.

Lemma deal_spec m names av (n : nat) :
  forall (i : nat) (dk : list Card) (ps ps' : list Player) (dk' : list Card),
    deal m names av n i dk ps = (ps', dk') ->
    (hand_total ps' + length dk' = hand_total ps + length dk)%nat
    /\ (length dk <= length dk' + 7 * n)%nat
    /\ length ps' = (length ps + n)%nat.
Proof.
  induction n as [|n IH]; intros i dk ps ps' dk' Hdeal; cbn in Hdeal.
  { injection Hdeal as <- <-. lia. }
  apply IH in Hdeal as (Htot & Hdk & Hn).
  rewrite hand_total_snoc, new_player_hand_length in Htot.
  rewrite length_app in Hn. cbn [length] in Hn.
  pose proof (length_take dk 7%nat). pose proof (length_drop dk 7%nat).
  cbn [length] in *. lia.
Qed.

(** What [createNewGame] returns; it cannot fail on the deck. *)
Lemma createNewGame_spec numPlayers difficulty gameMode playerNames shuffledAvatars g :
  exists s,
    createNewGame numPlayers difficulty gameMode playerNames shuffledAvatars g = Ok s
    /\ total_cards s = 52%nat
    /\ currentPlayerIndex s = 0
    /\ (2 <= length (players s) <= 4)%nat
    /\ length (discardPile s) = 1%nat
    /\ previousState s = None
    /\ pendingSuitChoice s = false /\ pendingSwap s = false
    /\ winnerId s = None.
Proof.
  unfold createNewGame.
  set (n := Z.to_nat _).
  assert (Hn : (2 <= n <= 4)%nat).
  { unfold n. repeat case_bool_decide; lia. }
  clearbody n.
  pose proof (shuffleDeck_length createDeck g) as Hsh.
  rewrite createDeck_length in Hsh.
  destruct (deal gameMode playerNames shuffledAvatars n 0 (shuffleDeck createDeck g).1 [])
    as [ps dk] eqn:Hdeal.
  apply deal_spec in Hdeal as (Htot & Hdk & Hlen).
  rewrite Hsh in Htot, Hdk. cbn [length hand_total sum_list_with] in Htot, Hlen.
  destruct (pop_nonempty dk) as (rest & startCard & Hpop & ->).
  { intros ->. cbn [length] in Hdk. lia. }
  rewrite Hpop. eexists. split; [reflexivity|].
  unfold total_cards. fields. rewrite length_app in *. cbn [length] in *.
  repeat split; try done; lia.
Qed.

(** * Card conservation *)

Lemma well_formed_advanceTurn (st : GameState) (steps : Z) :
  total_cards st = 52%nat -> (0 < length (players st))%nat ->
  well_formed (advanceTurn st steps).
Proof.
  intros Htot Hn. split.
  - unfold advanceTurn, total_cards in *. by fields.
  - pose proof (advanceTurn_valid st steps Hn) as Hv.
    unfold advanceTurn in *. by fields.
Qed.

Lemma well_formed_players (s : GameState) :
  well_formed s -> (0 < length (players s))%nat.
Proof. intros [_ ?]. lia. Qed.

Lemma well_formed_current (s : GameState) :
  well_formed s -> is_Some (current_player s).
Proof.
  intros [_ Hi]. unfold current_player, at_index.
  rewrite bool_decide_eq_false_2 by lia. apply lookup_lt_is_Some. lia.
Qed.

Lemma playCard_well_formed (s : GameState) (cardId : string) (g : Rng) (s' : GameState) :
  playCard s cardId g = Ok s' -> well_formed s ->
  well_formed s' /\ previousState s' = previousState s.
Proof.
  intros Hplay Hwf.
  apply playCard_Ok in Hplay as [-> | (player & i & card & _ & Hp & Hc & ->)]; [done|].
  pose proof (played_frame s player i card g) as Hf. cbn zeta in Hf.
  split; [|tauto]. split.
  - rewrite played_total_cards by done. apply Hwf.
  - by apply played_index.
Qed.

Lemma drawCard_well_formed (s : GameState) (g : Rng) (s' : GameState) :
  drawCard s g = Ok s' -> well_formed s ->
  well_formed s' /\ previousState s' = previousState s.
Proof.
  intros Hdraw Hwf.
  apply drawCard_Ok in Hdraw
    as [-> | (player & dk & dp & hand & txt & Hp & Hlen & ->)]; [done|].
  split; [|done].
  apply current_player_lookup in Hp as [Hp _].
  pose proof (hand_total_set_hand _ _ _ hand Hp) as Hh.
  destruct Hwf as [Htot Hi].
  apply well_formed_advanceTurn.
  - unfold total_cards in *. fields. lia.
  - fields. rewrite set_hand_length. lia.
Qed.

Lemma chooseSuit_well_formed (s : GameState) (suit : Suit) :
  well_formed s ->
  well_formed (chooseSuit s suit) /\ previousState (chooseSuit s suit) = previousState s.
Proof.
  intros Hwf. unfold chooseSuit.
  destruct (pendingSuitChoice s); cbn [negb]; [|done].
  rewrite cloneState_id. split; [|done].
  apply well_formed_advanceTurn.
  - apply Hwf.
  - fields. by apply well_formed_players.
Qed.

Lemma swapWith_well_formed (s : GameState) (targetPlayerId : string) (s' : GameState) :
  swapWith s targetPlayerId = Ok s' -> well_formed s ->
  well_formed s' /\ previousState s' = previousState s.
Proof.
  intros Hswap Hwf.
  apply swapWith_Ok in Hswap as [-> | (pc & pt & ti & txt & Hp & Ht & ->)]; [done|].
  split; [|done].
  apply current_player_lookup in Hp as [Hp _].
  destruct Hwf as [Htot Hi].
  apply well_formed_advanceTurn.
  - unfold total_cards in *. fields. by rewrite hand_total_swap.
  - fields. rewrite !set_hand_length. lia.
Qed.

Lemma step_well_formed (allowed : GameState -> Prop) (s s' : GameState) :
  step allowed s s' ->
  well_formed s -> (forall p, previousState s = Some p -> well_formed p) ->
  well_formed s' /\ (forall p, previousState s' = Some p -> well_formed p).
Proof.
  intros Hstep Hwf Hprev.
  destruct Hstep as
    [s cardId g s' _ Hplay | s g s' Hdraw | s g s' _ Hbot | s suit
    | s t s' Hswap | s | s | s s' Htrig | s s' Hbs | s s' Hbw | s | s s' Hundo].
  - apply playCard_well_formed in Hplay as [? Hp]; [|done]. by rewrite Hp.
  - apply drawCard_well_formed in Hdraw as [? Hp]; [|done]. by rewrite Hp.
  - apply performBotTurn_Ok in Hbot as [(cardId & g' & Hplay) | (g' & Hdraw)].
    + apply playCard_well_formed in Hplay as [? Hp]; [|done]. by rewrite Hp.
    + apply drawCard_well_formed in Hdraw as [? Hp]; [|done]. by rewrite Hp.
  - destruct (chooseSuit_well_formed s suit Hwf) as [? Hp]. by rewrite Hp.
  - apply swapWith_well_formed in Hswap as [? Hp]; [|done]. by rewrite Hp.
  - unfold clearPeek. by rewrite cloneState_id.
  - unfold confirmPassScreen. by rewrite cloneState_id.
  - unfold triggerPassScreen in Htrig. rewrite cloneState_id in Htrig.
    destruct (at_index _ _); [|done]. by injection Htrig as <-.
  - apply botChooseSuit_Ok in Hbs as [suit ->].
    destruct (chooseSuit_well_formed s suit Hwf) as [? Hp]. by rewrite Hp.
  - apply botChooseSwap_Ok in Hbw as [t Hswap].
    apply swapWith_well_formed in Hswap as [? Hp]; [|done]. by rewrite Hp.
  - unfold saveStateForUndo. rewrite !cloneState_id. split; [done|].
    fields. intros p [= <-]. done.
  - unfold undoLastMove in Hundo.
    destruct (canUndo s); [|done].
    destruct (previousState s) as [previous|] eqn:Hp; [|done].
    injection Hundo as <-. rewrite cloneState_id. split; [|done].
    by apply (Hprev previous).
Qed.

Lemma reachable_well_formed (allowed : GameState -> Prop) (s : GameState) :
  reachable allowed s ->
  well_formed s /\ (forall p, previousState s = Some p -> well_formed p).
Proof.
  induction 1 as [n d m names av g s Hnew | s s' _ [IHwf IHprev] Hstep].
  - destruct (createNewGame_spec n d m names av g)
      as (s0 & Hs0 & Htot & Hidx & Hn & _ & Hprev & _).
    assert (s0 = s) as -> by congruence.
    split; [|by rewrite Hprev]. split; [done|]. lia.
  - by apply (step_well_formed allowed s s').
Qed.

(** ** The pending pickup stays small *)

Lemma createNewGame_pickup numPlayers difficulty gameMode playerNames shuffledAvatars g s :
  createNewGame numPlayers difficulty gameMode playerNames shuffledAvatars g = Ok s ->
  pendingPickup s = 0.
Proof.
  unfold createNewGame.
  destruct (deal _ _ _ _ _ _ _) as [ps dk].
  destruct (pop dk) as [[dk' startCard]|]; [|done].
  by intros [= <-].
Qed.

Lemma playCard_pickup_bounded (s : GameState) (cardId : string) (g : Rng) (s' : GameState) :
  playCard s cardId g = Ok s' -> well_formed s -> pickup_bounded s ->
  pickup_bounded s'.
Proof.
  intros Hplay [Htot _] Hb.
  apply playCard_Ok in Hplay as [-> | (player & i & card & _ & Hp & Hc & ->)]; [done|].
  pose proof (played_frame s player i card g) as Hf. cbn zeta in Hf.
  destruct Hf as (_ & Hdp & _).
  unfold pickup_bounded in *. rewrite Hdp, length_app. cbn [length].
  assert (Hlen : (length (discardPile s) <= 52)%nat)
    by (unfold total_cards in Htot; lia).
  destruct (decide (delete i (p_hand player) = [])) as [Hnil|Hne].
  - unfold played. cbn zeta.
    rewrite bool_decide_eq_true_2 by (by rewrite Hnil). fields. lia.
  - destruct (played_effect s player i card g Hp Hne) as (_ & -> & _).
    destruct (isTwo card); [|destruct (isBlackJack card)];
      rewrite ?js_add_exact by (unfold MAX_SAFE_INTEGER; lia); lia.
Qed.

Lemma drawCard_pickup_bounded (s : GameState) (g : Rng) (s' : GameState) :
  drawCard s g = Ok s' -> pickup_bounded s -> pickup_bounded s'.
Proof.
  intros Hdraw Hb.
  apply drawCard_Ok in Hdraw
    as [-> | (player & dk & dp & hand & txt & _ & _ & ->)]; [done|].
  unfold pickup_bounded, advanceTurn. fields. lia.
Qed.

Lemma chooseSuit_pickup_bounded (s : GameState) (suit : Suit) :
  pickup_bounded s -> pickup_bounded (chooseSuit s suit).
Proof.
  intros Hb. unfold chooseSuit.
  destruct (pendingSuitChoice s); cbn [negb]; [|done].
  rewrite cloneState_id. unfold pickup_bounded, advanceTurn in *. by fields.
Qed.

Lemma swapWith_pickup_bounded (s : GameState) (targetPlayerId : string) (s' : GameState) :
  swapWith s targetPlayerId = Ok s' -> pickup_bounded s -> pickup_bounded s'.
Proof.
  intros Hswap Hb.
  apply swapWith_Ok in Hswap as [-> | (pc & pt & ti & txt & _ & _ & ->)]; [done|].
  unfold pickup_bounded, advanceTurn in *. by fields.
Qed.

Lemma step_pickup_bounded (allowed : GameState -> Prop) (s s' : GameState) :
  step allowed s s' ->
  well_formed s ->
  pickup_bounded s -> (forall p, previousState s = Some p -> pickup_bounded p) ->
  pickup_bounded s' /\ (forall p, previousState s' = Some p -> pickup_bounded p).
Proof.
  intros Hstep Hwf Hb Hprev.
  destruct Hstep as
    [s cardId g s' _ Hplay | s g s' Hdraw | s g s' _ Hbot | s suit
    | s t s' Hswap | s | s | s s' Htrig | s s' Hbs | s s' Hbw | s | s s' Hundo].
  - split; [by apply (playCard_pickup_bounded s cardId g)|].
    apply playCard_well_formed in Hplay as [_ Hp]; [|done]. by rewrite Hp.
  - split; [by apply (drawCard_pickup_bounded s g)|].
    apply drawCard_well_formed in Hdraw as [_ Hp]; [|done]. by rewrite Hp.
  - apply performBotTurn_Ok in Hbot as [(cardId & g' & Hplay) | (g' & Hdraw)].
    + split; [by apply (playCard_pickup_bounded s cardId g')|].
      apply playCard_well_formed in Hplay as [_ Hp]; [|done]. by rewrite Hp.
    + split; [by apply (drawCard_pickup_bounded s g')|].
      apply drawCard_well_formed in Hdraw as [_ Hp]; [|done]. by rewrite Hp.
  - split; [by apply chooseSuit_pickup_bounded|].
    destruct (chooseSuit_well_formed s suit Hwf) as [_ Hp]. by rewrite Hp.
  - split; [by apply (swapWith_pickup_bounded s t)|].
    apply swapWith_well_formed in Hswap as [_ Hp]; [|done]. by rewrite Hp.
  - unfold clearPeek. by rewrite cloneState_id.
  - unfold confirmPassScreen. by rewrite cloneState_id.
  - unfold triggerPassScreen in Htrig. rewrite cloneState_id in Htrig.
    destruct (at_index _ _); [|done]. by injection Htrig as <-.
  - apply botChooseSuit_Ok in Hbs as [suit ->].
    split; [by apply chooseSuit_pickup_bounded|].
    destruct (chooseSuit_well_formed s suit Hwf) as [_ Hp]. by rewrite Hp.
  - apply botChooseSwap_Ok in Hbw as [t Hswap].
    split; [by apply (swapWith_pickup_bounded s t)|].
    apply swapWith_well_formed in Hswap as [_ Hp]; [|done]. by rewrite Hp.
  - unfold saveStateForUndo. rewrite !cloneState_id. split; [done|].
    fields. intros p [= <-]. done.
  - unfold undoLastMove in Hundo.
    destruct (canUndo s); [|done].
    destruct (previousState s) as [previous|] eqn:Hp; [|done].
    injection Hundo as <-. rewrite cloneState_id. split; [|done].
    by apply (Hprev previous).
Qed.

Lemma reachable_pickup_bounded (allowed : GameState -> Prop) (s : GameState) :
  reachable allowed s ->
  pickup_bounded s /\ (forall p, previousState s = Some p -> pickup_bounded p).
Proof.
  induction 1 as [n d m names av g s Hnew | s s' Hr [IHb IHprev] Hstep].
  - destruct (createNewGame_spec n d m names av g)
      as (s0 & Hs0 & _ & _ & _ & Hdp & Hprev & _).
    assert (s0 = s) as -> by congruence.
    split; [|by rewrite Hprev].
    unfold pickup_bounded.
    rewrite (createNewGame_pickup n d m names av g s Hnew), Hdp. lia.
  - apply (step_pickup_bounded allowed s s'); try done.
    by apply (reachable_well_formed allowed).
Qed.

(** In every state of a game the pending pickup is a small natural number,
    far inside the safe integers: adding 2 or 5 to it is exact. *)
Lemma reachable_pendingPickup_safe (allowed : GameState -> Prop) (s : GameState) :
  reachable allowed s ->
  0 <= pendingPickup s <= 260
  /\ Z.abs (pendingPickup s + 2) <= MAX_SAFE_INTEGER
  /\ Z.abs (pendingPickup s + 5) <= MAX_SAFE_INTEGER.
Proof.
  intros Hr.
  pose proof (reachable_well_formed allowed s Hr) as [[Htot _] _].
  pose proof (reachable_pickup_bounded allowed s Hr) as [Hb _].
  unfold pickup_bounded, total_cards, MAX_SAFE_INTEGER in *. lia.
Qed.

(** C3 (card conservation): in every state reached from a new game by any
    sequence of engine transitions, the deck, the discard pile and the hands
    hold 52 cards between them. *)
Theorem card_conservation (s : GameState) :
  reachable any_time s ->
  (length (deck s) + length (discardPile s)
   + sum_list_with (fun p => length (p_hand p)) (players s) = 52)%nat.
Proof. intros Hr. by apply reachable_well_formed in Hr as [[Htot _] _]. Qed.

(** * The two pending choices *)

Lemma playCard_flags (s : GameState) (cardId : string) (g : Rng) (s' : GameState) :
  playCard s cardId g = Ok s' ->
  previousState s' = previousState s
  /\ ((pendingSuitChoice s' = pendingSuitChoice s /\ pendingSwap s' = pendingSwap s)
      \/ (pendingSuitChoice s' = true /\ pendingSwap s' = pendingSwap s)
      \/ (pendingSuitChoice s' = pendingSuitChoice s /\ pendingSwap s' = true)).
Proof.
  intros Hplay.
  apply playCard_Ok in Hplay as [-> | (player & i & card & _ & _ & _ & ->)]; [tauto|].
  pose proof (played_frame s player i card g) as Hf. cbn zeta in Hf.
  split; [tauto|]. apply played_flags.
Qed.

Lemma drawCard_flags (s : GameState) (g : Rng) (s' : GameState) :
  drawCard s g = Ok s' ->
  previousState s' = previousState s
  /\ pendingSuitChoice s' = pendingSuitChoice s /\ pendingSwap s' = pendingSwap s.
Proof.
  intros Hdraw.
  by apply drawCard_Ok in Hdraw as [-> | (player & dk & dp & hand & txt & _ & _ & ->)].
Qed.

Lemma chooseSuit_flags (s : GameState) (suit : Suit) :
  previousState (chooseSuit s suit) = previousState s
  /\ pendingSuitChoice (chooseSuit s suit) = false
  /\ pendingSwap (chooseSuit s suit) = pendingSwap s.
Proof.
  unfold chooseSuit. destruct (pendingSuitChoice s) eqn:Hs; cbn [negb]; [|done].
  by rewrite cloneState_id.
Qed.

Lemma swapWith_flags (s : GameState) (targetPlayerId : string) (s' : GameState) :
  swapWith s targetPlayerId = Ok s' ->
  previousState s' = previousState s
  /\ pendingSuitChoice s' = pendingSuitChoice s
  /\ (s' = s \/ pendingSwap s' = false).
Proof.
  intros Hswap.
  apply swapWith_Ok in Hswap as [-> | (pc & pt & ti & txt & _ & _ & ->)]; [tauto|].
  repeat split. by right.
Qed.

Lemma step_exclusive_choice (s s' : GameState) :
  step no_choice_pending s s' ->
  exclusive_choice s -> (forall p, previousState s = Some p -> exclusive_choice p) ->
  exclusive_choice s' /\ (forall p, previousState s' = Some p -> exclusive_choice p).
Proof.
  unfold exclusive_choice. intros Hstep Hex Hprev.
  destruct Hstep as
    [s cardId g s' [Hq Hk] Hplay | s g s' Hdraw | s g s' [Hq Hk] Hbot | s suit
    | s t s' Hswap | s | s | s s' Htrig | s s' Hbs | s s' Hbw | s | s s' Hundo].
  - apply playCard_flags in Hplay as [Hp Hfl]. rewrite Hp. split; [|done].
    intros [? ?]. destruct Hfl as [[? ?]|[[? ?]|[? ?]]]; congruence.
  - apply drawCard_flags in Hdraw as (Hp & Hs & Hw). rewrite Hp, Hs, Hw. done.
  - apply performBotTurn_Ok in Hbot as [(cardId & g' & Hplay) | (g' & Hdraw)].
    + apply playCard_flags in Hplay as [Hp Hfl]. rewrite Hp. split; [|done].
      intros [? ?]. destruct Hfl as [[? ?]|[[? ?]|[? ?]]]; congruence.
    + apply drawCard_flags in Hdraw as (Hp & Hs & Hw). rewrite Hp, Hs, Hw. done.
  - destruct (chooseSuit_flags s suit) as (Hp & Hs & Hw). rewrite Hp, Hs.
    split; [|done]. by intros [? ?].
  - apply swapWith_flags in Hswap as (Hp & Hs & [-> | Hw]); [done|].
    rewrite Hp, Hw. split; [|done]. by intros [? ?].
  - unfold clearPeek. by rewrite cloneState_id.
  - unfold confirmPassScreen. by rewrite cloneState_id.
  - unfold triggerPassScreen in Htrig. rewrite cloneState_id in Htrig.
    destruct (at_index _ _); [|done]. by injection Htrig as <-.
  - apply botChooseSuit_Ok in Hbs as [suit ->].
    destruct (chooseSuit_flags s suit) as (Hp & Hs & Hw). rewrite Hp, Hs.
    split; [|done]. by intros [? ?].
  - apply botChooseSwap_Ok in Hbw as [t Hswap].
    apply swapWith_flags in Hswap as (Hp & Hs & [-> | Hw]); [done|].
    rewrite Hp, Hw. split; [|done]. by intros [? ?].
  - unfold saveStateForUndo. rewrite !cloneState_id. split; [done|].
    fields. intros p [= <-]. done.
  - unfold undoLastMove in Hundo.
    destruct (canUndo s); [|done].
    destruct (previousState s) as [previous|] eqn:Hp; [|done].
    injection Hundo as <-. rewrite cloneState_id. split; [|done].
    by apply (Hprev previous).
Qed.

(** C7, as the engine has it: when the driver calls [playCard] (or lets a
    bot take its turn) only while no choice is pending, the suit choice and
    the swap choice are never pending together in any state reached from a
    new game. *)
Theorem pending_choices_exclusive (s : GameState) :
  reachable no_choice_pending s ->
  ~ (pendingSuitChoice s = true /\ pendingSwap s = true).
Proof.
  intros Hr.
  enough (exclusive_choice s
          /\ (forall p, previousState s = Some p -> exclusive_choice p)) as [? _]; [done|].
  induction Hr as [n d m names av g s Hnew | s s' _ [IHex IHprev] Hstep].
  - destruct (createNewGame_spec n d m names av g)
      as (s0 & Hs0 & _ & _ & _ & _ & Hprev & Hq & Hk & _).
    assert (s0 = s) as -> by congruence.
    split; [|by rewrite Hprev]. unfold exclusive_choice. rewrite Hq. by intros [? _].
  - by apply (step_exclusive_choice s s').
Qed.

(** ** Two games played out *)

Lemma play_all_Raise (e : Exn) (cardIds : list string) :
  play_all (Raise e) cardIds = Raise e.
Proof. by destruct cardIds. Qed.

Lemma play_all_reachable (cardIds : list string) :
  forall (r : Result GameState) (s' : GameState),
    (forall s, r = Ok s -> reachable any_time s) ->
    play_all r cardIds = Ok s' -> reachable any_time s'.
Proof.
  induction cardIds as [|cardId rest IH]; intros r s' Hr Hrun; cbn in Hrun.
  { by apply Hr. }
  destruct r as [s|e]; [|done].
  apply (IH (playCard s cardId [])); [|done].
  intros s1 Hplay. apply (reachable_step any_time s s1); [by apply Hr|].
  by apply (step_playCard any_time s cardId []).
Qed.

Lemma queen_then_king_reachable (s : GameState) :
  queen_then_king = Ok s -> reachable any_time s.
Proof.
  apply play_all_reachable. intros s0 Hs0.
  by apply (reachable_new any_time 3 Medium VsBot None BOT_AVATARS
              (draws_with [(11, 0); (10, 1)]%nat)).
Qed.

Lemma win_with_open_choice_reachable (s : GameState) :
  win_with_open_choice = Ok s -> reachable any_time s.
Proof.
  apply play_all_reachable. intros s0 Hs0.
  by apply (reachable_new any_time 2 Medium VsBot None BOT_AVATARS
              (draws_with [(45, 0); (32, 1); (25, 2); (19, 3); (12, 4); (10, 5)]%nat)).
Qed.

Lemma card_conservation_witness :
  exists s, queen_then_king = Ok s
            /\ (length (deck s) + length (discardPile s)
                + sum_list_with (fun p => length (p_hand p)) (players s) = 52)%nat.
Proof.
  destruct queen_then_king as [s|e] eqn:Hrun; [|by vm_compute in Hrun].
  exists s. split; [done|].
  apply (card_conservation s). by apply queen_then_king_reachable.
Defined.

(** C7 as stated fails: [playCard] does not look at the pending flags, so a
    player who has just played a Queen can play a King before choosing the
    suit, and in a three-player game both choices are then pending. *)
Lemma both_choices_pending :
  exists s, queen_then_king = Ok s
            /\ reachable any_time s
            /\ pendingSuitChoice s = true /\ pendingSwap s = true.
Proof.
  destruct queen_then_king as [s|e] eqn:Hrun; [|by vm_compute in Hrun].
  exists s. split; [done|]. split; [by apply queen_then_king_reachable|].
  vm_compute in Hrun. injection Hrun as <-. by split.
Qed.

Lemma pending_choices_exclusive_witness :
  exists s0 s1,
    three_player_opening = Ok s0
    /\ playCard s0 "♥-Q" [] = Ok s1
    /\ pendingSuitChoice s1 = true
    /\ ~ (pendingSuitChoice s1 = true /\ pendingSwap s1 = true).
Proof.
  destruct three_player_opening as [s0|e] eqn:Hnew; [|by vm_compute in Hnew].
  destruct (playCard s0 "♥-Q" []) as [s1|e] eqn:Hplay.
  2:{ vm_compute in Hnew. injection Hnew as <-. by vm_compute in Hplay. }
  exists s0, s1. split; [done|]. split; [done|].
  assert (Hopen : no_choice_pending s0).
  { vm_compute in Hnew. injection Hnew as <-. by split. }
  split.
  - vm_compute in Hnew. injection Hnew as <-.
    vm_compute in Hplay. by injection Hplay as <-.
  - apply (pending_choices_exclusive s1).
    apply (reachable_step no_choice_pending s0 s1).
    + by apply (reachable_new no_choice_pending 3 Medium VsBot None BOT_AVATARS
                  (draws_with [(11, 0); (10, 1)]%nat)).
    + by apply (step_playCard no_choice_pending s0 "♥-Q" []).
Defined.

(** * Calls after the game is over *)

(** C1 as stated fails: [chooseSuit] does not look at [winnerId].  A player
    who wins while the suit choice of an earlier Queen is still open leaves a
    finished game on which [chooseSuit] passes the turn on. *)
Lemma chooseSuit_after_win :
  exists s, win_with_open_choice = Ok s
            /\ reachable any_time s
            /\ winnerId s = Some "player-0"
            /\ currentPlayerIndex s = 0
            /\ currentPlayerIndex (chooseSuit s Hearts) = 1
            /\ chooseSuit s Hearts <> s.
Proof.
  destruct win_with_open_choice as [s|e] eqn:Hrun; [|by vm_compute in Hrun].
  exists s. split; [done|]. split; [by apply win_with_open_choice_reachable|].
  vm_compute in Hrun. injection Hrun as <-.
  repeat split. intros Heq. apply (f_equal currentPlayerIndex) in Heq.
  by vm_compute in Heq.
Qed.

(** C1, as the engine has it: on a state whose [winnerId] is set (to a
    non-empty id), [playCard], [drawCard] and [performBotTurn] return the
    state itself; [chooseSuit] and [swapWith] return it when their own choice
    is not pending; [clearPeek], [confirmPassScreen] and [triggerPassScreen]
    leave every field of the game itself as it was, and still write what
    they show: [clearPeek] clears the peeked card and its owner,
    [confirmPassScreen] lowers the pass screen, and [triggerPassScreen]
    raises it with the name of the current player. *)
Theorem terminal_state_calls (S : GameState) :
  truthy (winnerId S) = true ->
  (forall cardId g, playCard S cardId g = Ok S)
  /\ (forall g, drawCard S g = Ok S)
  /\ (forall g, performBotTurn S g = Ok S)
  /\ (forall suit, pendingSuitChoice S = false -> chooseSuit S suit = S)
  /\ (forall targetPlayerId, pendingSwap S = false -> swapWith S targetPlayerId = Ok S)
  /\ (same_gameplay (clearPeek S) S
      /\ peekingCard (clearPeek S) = None
      /\ peekingPlayerId (clearPeek S) = None)
  /\ (same_gameplay (confirmPassScreen S) S
      /\ showPassScreen (confirmPassScreen S) = false)
  /\ (forall S', triggerPassScreen S = Ok S' -> same_gameplay S' S)
  /\ (forall nextPlayer,
        current_player S = Some nextPlayer ->
        exists S', triggerPassScreen S = Ok S'
                   /\ showPassScreen S' = true
                   /\ nextPlayerName S' = p_name nextPlayer).
Proof.
  intros Hw. split_and!.
  - intros cardId g. unfold playCard. by rewrite Hw.
  - intros g. unfold drawCard. by rewrite Hw.
  - intros g. unfold performBotTurn. by rewrite Hw.
  - intros suit Hq. unfold chooseSuit. by rewrite Hq.
  - intros t Hk. unfold swapWith. by rewrite Hk.
  - unfold clearPeek, same_gameplay. by rewrite cloneState_id.
  - unfold clearPeek. by rewrite cloneState_id.
  - unfold clearPeek. by rewrite cloneState_id.
  - unfold confirmPassScreen, same_gameplay. by rewrite cloneState_id.
  - unfold confirmPassScreen. by rewrite cloneState_id.
  - intros S'. unfold triggerPassScreen, same_gameplay. rewrite cloneState_id.
    destruct (at_index _ _); [|done]. by intros [= <-].
  - intros nextPlayer Hnext. unfold triggerPassScreen, current_player in *.
    rewrite cloneState_id, Hnext. by eexists.
Qed.

Lemma terminal_state_calls_witness :
  exists s, win_with_open_choice = Ok s
            /\ playCard s "♥-9" [] = Ok s
            /\ drawCard s [] = Ok s
            /\ same_gameplay (clearPeek s) s
            /\ peekingCard (clearPeek s) = None
            /\ exists s', triggerPassScreen s = Ok s' /\ showPassScreen s' = true.
Proof.
  destruct win_with_open_choice as [s|e] eqn:Hrun; [|by vm_compute in Hrun].
  exists s. split; [reflexivity|].
  assert (Hw : truthy (winnerId s) = true).
  { vm_compute in Hrun. by injection Hrun as <-. }
  destruct (well_formed_current s) as [nextPlayer Hnext].
  { apply (reachable_well_formed any_time).
    apply win_with_open_choice_reachable. exact Hrun. }
  destruct (terminal_state_calls s Hw)
    as (Hplay & Hdraw & _ & _ & _ & (Hpeek & Hcard & _) & _ & _ & Htrigger).
  destruct (Htrigger nextPlayer Hnext) as (s' & Hs' & Hshow & _).
  split; [apply Hplay|]. split; [apply Hdraw|].
  split; [exact Hpeek|]. split; [exact Hcard|].
  exists s'. split; [exact Hs'|exact Hshow].
Defined.

(** * The suit a bot chooses *)

Lemma count_of_snoc (s : Suit) (hand : list Card) (c : Card) :
  count_of s (hand ++ [c])
  = (count_of s hand + if decide (c_suit c = s) then 1 else 0)%nat.
Proof.
  unfold count_of. rewrite filter_app, length_app. f_equal.
  destruct (decide (c_suit c = s)).
  - by rewrite filter_cons_True.
  - by rewrite filter_cons_False.
Qed.

Lemma count_of_elem (hand : list Card) (c : Card) :
  c ∈ hand -> (0 < count_of (c_suit c) hand)%nat.
Proof.
  intros Hc. unfold count_of.
  assert (Hin : c ∈ filter (fun c' => c_suit c' = c_suit c) hand)
    by (by apply list_elem_of_filter).
  destruct (filter _ hand); [by apply not_elem_of_nil in Hin|cbn; lia].
Qed.

Lemma first_seen_snoc (hand : list Card) (c : Card) :
  first_seen (hand ++ [c])
  = if decide (c_suit c ∈ first_seen hand) then first_seen hand
    else first_seen hand ++ [c_suit c].
Proof. unfold first_seen. by rewrite foldl_snoc. Qed.

Lemma first_seen_spec (hand : list Card) :
  NoDup (first_seen hand)
  /\ forall s, s ∈ first_seen hand <-> (0 < count_of s hand)%nat.
Proof.
  induction hand as [|c hand [IHnd IHin]] using rev_ind.
  { split; [constructor|]. intros s. cbn. split; [by intros ?%not_elem_of_nil|lia]. }
  rewrite first_seen_snoc. destruct (decide (c_suit c ∈ first_seen hand)) as [Hin|Hnin].
  - split; [done|]. intros s. rewrite count_of_snoc, IHin.
    destruct (decide (c_suit c = s)) as [<-|]; [|lia].
    apply IHin in Hin. lia.
  - split.
    + apply NoDup_app. split; [done|]. split; [|apply NoDup_singleton].
      intros s Hs ->%list_elem_of_singleton. done.
    + intros s. rewrite count_of_snoc, elem_of_app, list_elem_of_singleton, IHin.
      destruct (decide (c_suit c = s)) as [<-|Hne].
      * split; [lia|]. intros _. by right.
      * split; [intros [?|?]; [lia|congruence]|intros; left; lia].
Qed.

(** The suits show up in [first_seen] in the order of their first cards:
    every card ahead of the first card of a suit belongs to a suit listed
    before it. *)
Lemma first_seen_order (hand : list Card) :
  forall L1 s L2,
    first_seen hand = L1 ++ s :: L2 ->
    exists pre c post,
      hand = pre ++ c :: post /\ c_suit c = s
      /\ forall c', c' ∈ pre -> c_suit c' ∈ L1.
Proof.
  induction hand as [|c0 hand IH] using rev_ind; intros L1 s L2 Hseen.
  { by destruct L1. }
  rewrite first_seen_snoc in Hseen.
  destruct (decide (c_suit c0 ∈ first_seen hand)) as [Hin|Hnin].
  - destruct (IH _ _ _ Hseen) as (pre & c & post & -> & Hc & Hpre).
    exists pre, c, (post ++ [c0]). by rewrite <- app_assoc.
  - destruct L2 as [|x L2 _] using rev_ind.
    + apply app_inj_tail in Hseen as [HL <-].
      exists hand, c0, []. repeat split.
      intros c' Hc'. rewrite <- HL. apply first_seen_spec. by apply count_of_elem.
    + rewrite app_comm_cons, app_assoc in Hseen.
      apply app_inj_tail in Hseen as [HL _].
      destruct (IH _ _ _ HL) as (pre & c & post & -> & Hc & Hpre).
      exists pre, c, (post ++ [c0]). by rewrite <- app_assoc.
Qed.

Lemma bump_notin (f : Suit -> Z) (t : Suit) (L : list Suit) :
  t ∉ L ->
  bump t ((fun s => (s, f s)) <$> L) = ((fun s => (s, f s)) <$> L) ++ [(t, 0 + 1)].
Proof.
  induction L as [|s L IH]; intros Ht; cbn; [done|].
  apply not_elem_of_cons in Ht as [Hne Ht].
  rewrite bool_decide_eq_false_2 by congruence. by rewrite IH.
Qed.

Lemma bump_in (f : Suit -> Z) (t : Suit) (L : list Suit) :
  NoDup L -> t ∈ L ->
  bump t ((fun s => (s, f s)) <$> L)
  = (fun s => (s, if decide (s = t) then f s + 1 else f s)) <$> L.
Proof.
  induction L as [|s L IH]; intros Hnd Ht; [by apply not_elem_of_nil in Ht|].
  apply NoDup_cons in Hnd as [Hs Hnd]. cbn.
  destruct (decide (s = t)) as [->|Hne].
  - rewrite bool_decide_eq_true_2 by done. f_equal.
    apply list_fmap_ext. intros i x Hx.
    destruct (decide (x = t)) as [->|]; [|done].
    exfalso. apply Hs. by apply list_elem_of_lookup_2 in Hx.
  - rewrite bool_decide_eq_false_2 by done. f_equal.
    apply IH; [done|]. apply elem_of_cons in Ht as [?|?]; [congruence|done].
Qed.

(** The counts object of a hand: one entry per suit held, in the order of
    first appearance, with the number of cards of that suit. *)
Lemma count_suits_spec (hand : list Card) :
  count_suits hand
  = (fun s => (s, Z.of_nat (count_of s hand))) <$> first_seen hand.
Proof.
  induction hand as [|c hand IH] using rev_ind; [done|].
  unfold count_suits in *. rewrite foldl_snoc, IH, first_seen_snoc.
  destruct (first_seen_spec hand) as [Hnd Hin].
  destruct (decide (c_suit c ∈ first_seen hand)) as [Hc|Hc].
  - rewrite bump_in by done. apply list_fmap_ext. intros i s _.
    rewrite count_of_snoc. f_equal.
    destruct (decide (s = c_suit c)) as [->|Hne].
    + rewrite decide_True by done. lia.
    + rewrite decide_False by congruence. lia.
  - rewrite bump_notin by done. rewrite fmap_app. cbn. f_equal.
    + apply list_fmap_ext. intros i s Hs. rewrite count_of_snoc.
      rewrite decide_False; [by rewrite Nat.add_0_r|].
      intros <-. apply Hc. by apply list_elem_of_lookup_2 in Hs.
    + rewrite count_of_snoc, decide_True by done.
      assert (count_of (c_suit c) hand = 0%nat) as ->; [|done].
      destruct (Hin (c_suit c)) as [_ Hpos].
      destruct (count_of (c_suit c) hand); [done|]. exfalso. apply Hc, Hpos. lia.
Qed.

(** The scan keeps the first entry that beats everything before it and is
    not beaten by anything after it. *)
Lemma scan_best_spec (f : Suit -> Z) (L : list Suit) :
  forall (b0 : Suit) (v0 : Z),
    let b := scan_best ((fun s => (s, f s)) <$> L) b0 v0 in
    (b = b0 /\ forall s, s ∈ L -> f s <= v0)
    \/ (exists L1 L2, L = L1 ++ b :: L2 /\ v0 < f b
                      /\ (forall s, s ∈ L1 -> f s < f b)
                      /\ (forall s, s ∈ L2 -> f s <= f b)).
Proof.
  induction L as [|s L IH]; intros b0 v0; cbn.
  { left. split; [done|]. by intros s ?%not_elem_of_nil. }
  case_bool_decide as Hlt.
  - right. destruct (IH s (f s)) as [[Hb Hle] | (L1 & L2 & HL & Hb & H1 & H2)].
    + exists [], L. rewrite Hb. repeat split; try done. by intros ? ?%not_elem_of_nil.
    + exists (s :: L1), L2. split; [cbn; by f_equal|].
      split; [lia|]. split; [|done].
      intros s' [->|?]%elem_of_cons; [done|by apply H1].
  - destruct (IH b0 v0) as [[Hb Hle] | (L1 & L2 & HL & Hb & H1 & H2)].
    + left. split; [done|].
      intros s' [->|?]%elem_of_cons; [lia|by apply Hle].
    + right. exists (s :: L1), L2. split; [cbn; by f_equal|].
      split; [done|]. split; [|done].
      intros s' [->|?]%elem_of_cons; [lia|by apply H1].
Qed.

(** The suit picked for a hand: no suit is held more often, and every card
    ahead of the first card of the picked suit is of a suit held strictly
    less often. *)
Lemma bestSuitOf_spec (hand : list Card) :
  let best := bestSuitOf hand in
  (forall s, (count_of s hand <= count_of best hand)%nat)
  /\ (hand = [] -> best = Hearts)
  /\ (hand <> [] ->
      exists pre c post,
        hand = pre ++ c :: post /\ c_suit c = best
        /\ forall c', c' ∈ pre -> (count_of (c_suit c') hand < count_of best hand)%nat).
Proof.
  cbn zeta. unfold bestSuitOf. rewrite count_suits_spec.
  destruct (first_seen_spec hand) as [_ Hin].
  destruct (scan_best_spec (fun s => Z.of_nat (count_of s hand)) (first_seen hand) Hearts 0)
    as [[Hb Hle] | (L1 & L2 & HL & Hb & H1 & H2)].
  - (* no suit is held at all *)
    assert (Hzero : forall s, count_of s hand = 0%nat).
    { intros s. destruct (count_of s hand) eqn:Hs; [done|].
      assert (Hs' : s ∈ first_seen hand) by (apply Hin; lia).
      apply Hle in Hs'. lia. }
    split; [intros s; rewrite !Hzero; lia|]. split; [done|].
    intros Hne. destruct hand as [|c hand]; [done|].
    pose proof (count_of_elem (c :: hand) c ltac:(left)) as Hpos.
    rewrite Hzero in Hpos. lia.
  - set (best := scan_best _ Hearts 0) in *.
    split; [|split].
    + intros s. destruct (count_of s hand) eqn:Hs; [lia|]. rewrite <- Hs.
      assert (Hs' : s ∈ first_seen hand) by (apply Hin; lia).
      rewrite HL in Hs'.
      apply elem_of_app in Hs' as [Hs'|[->|Hs']%elem_of_cons].
      * apply H1 in Hs'. lia.
      * done.
      * apply H2 in Hs'. lia.
    + intros ->. by destruct L1.
    + intros _. destruct (first_seen_order hand L1 best L2 HL)
        as (pre & c & post & Hhand & Hc & Hpre).
      exists pre, c, post. split; [done|]. split; [done|].
      intros c' Hc'. apply Hpre, H1 in Hc'. lia.
Qed.

(** C10, as the engine has it: [botChooseSuit] resolves the choice with a
    suit the bot holds the most cards of; among several such suits it takes
    the one whose first card comes first in the bot's hand (the hand order,
    not the declaration order of the suits), and Hearts for an empty hand. *)
Theorem botChooseSuit_most_held (S : GameState) (bot : Player) :
  current_player S = Some bot ->
  let hand := p_hand bot in
  let best := bestSuitOf hand in
  botChooseSuit S = Ok (chooseSuit S best)
  /\ (pendingSuitChoice S = true -> chosenSuit (chooseSuit S best) = Some best)
  /\ (forall s, (count_of s hand <= count_of best hand)%nat)
  /\ (hand = [] -> best = Hearts)
  /\ (hand <> [] ->
      exists pre c post,
        hand = pre ++ c :: post /\ c_suit c = best
        /\ forall c', c' ∈ pre -> (count_of (c_suit c') hand < count_of best hand)%nat).
Proof.
  intros Hp. cbn zeta. split; [|split].
  - unfold botChooseSuit. unfold current_player in Hp. by rewrite Hp.
  - intros Hq. unfold chooseSuit. rewrite Hq. cbn [negb].
    unfold advanceTurn. by fields.
  - apply bestSuitOf_spec.
Qed.

Lemma botChooseSuit_most_held_witness :
  botChooseSuit tie_scenario = Ok (chooseSuit tie_scenario Spades)
  /\ chosenSuit (chooseSuit tie_scenario Spades) = Some Spades.
Proof.
  destruct (botChooseSuit_most_held tie_scenario
              (mkPlayer "bot-1" "Bot 1" "🐯" true
                 [mkCard "♠-A" Spades Ace; mkCard "♥-2" Hearts Two]) eq_refl)
    as (Hbot & Hchosen & _).
  split; [exact Hbot|]. by apply Hchosen.
Defined.

(** C10 as stated fails: with one Spade ahead of one Heart in the hand the
    two suits tie, the declaration order would give Hearts, and the bot
    chooses Spades. *)
Lemma botChooseSuit_not_declaration_order :
  current_player tie_scenario
    = Some (mkPlayer "bot-1" "Bot 1" "🐯" true
              [mkCard "♠-A" Spades Ace; mkCard "♥-2" Hearts Two])
  /\ count_of Spades [mkCard "♠-A" Spades Ace; mkCard "♥-2" Hearts Two]
     = count_of Hearts [mkCard "♠-A" Spades Ace; mkCard "♥-2" Hearts Two]
  /\ declaration_order_best [mkCard "♠-A" Spades Ace; mkCard "♥-2" Hearts Two] = Hearts
  /\ botChooseSuit tie_scenario = Ok (chooseSuit tie_scenario Spades)
  /\ chosenSuit (chooseSuit tie_scenario Spades) = Some Spades
  /\ botChooseSuit tie_scenario
     <> Ok (chooseSuit tie_scenario
              (declaration_order_best
                 [mkCard "♠-A" Spades Ace; mkCard "♥-2" Hearts Two])).
Proof.
  split_and!; try reflexivity.
  intros Heq. vm_compute in Heq. discriminate Heq.
Qed.
